(** * webitel_sdk: the socket client session layer

    A shallow embedding of [src/socket/client.ts] (class [Client]) and of
    [src/socket/call.ts] (class [Call]): the sequence-numbered request
    correlator, the inbound message router, the event dispatcher, the call
    registry and the per-call state machine.

    Modelling conventions.
    - JavaScript numbers that the code only uses as integers (sequence
      counters, millisecond timestamps, SIP status codes) are [Z].  The
      counter [reqSeq] is only ever incremented from 0 and stays far below
      2^53, the range in which [++] is exact.  Timestamps are subtracted as
      integers, which is what the code computes for safe integers whose
      difference is safe ([exact_subtraction]).
    - [undefined] and [null] are both [None]: the code treats the two alike
      wherever it tests or reads a value (both are falsy, a property read on
      either raises [TypeError]).  Only a template string tells them apart;
      [show_str] gives the text of [undefined], so the text of a missing
      value is the code's for an absent property and not for a JSON [null].
    - Objects with identity (the [Call] instances) live in a store
      [heap : list Call]; a reference is an index of that store.  The
      registry [callStore] maps call ids to references, so a holder of a
      reference and the registry can alias the same object.
    - Collaborators that are not part of these two files (the socket, the
      logger, the SIP phone, the handlers given to [subscribe...]) are
      represented by the trace of calls made to them.
    - An [async] function is a function whose exceptions reject the promise
      it returns; a continuation after [await client.request(...)] is kept
      with the pending entry and run when the reply settles the request. *)

From stdpp Require Import gmap strings list pretty.
From Stdlib Require Import ZArith Lia.

Open Scope string_scope.
Open Scope Z_scope.
Open Scope list_scope.

(** ** JavaScript values and completions *)

Inductive Exn :=
| TypeError
| Error (message : string).

Inductive completion (A : Type) :=
| Normal (a : A)
| Throw (e : Exn).
Arguments Normal {A} a.
Arguments Throw {A} e.

(** A plain object handed to the transport or received from it: property
    names with atomic values. *)
Inductive Atom :=
| JUndefined
| JBool (b : bool)
| JNum (n : Z)
| JStr (s : string).

Abbreviation JObject := (list (string * Atom)).

(** A possibly missing string as a property value. *)
Definition opt_str (s : option string) : Atom :=
  match s with
  | Some x => JStr x
  | None => JUndefined
  end.

(** [if (s)] on a possibly missing string: defined and not empty. *)
Definition truthy (s : option string) : bool :=
  match s with
  | Some x => negb (x =? "")%string
  | None => false
  end.

(** [s || null] on a possibly missing string. *)
Definition or_null (s : option string) : option string :=
  if truthy s then s else None.

(** [Math.round (n / d)] for integers [n] and [d > 0]: the nearest integer,
    halves rounded towards plus infinity.  A JS number is a double: the
    quotient is the one of the code as long as [n] is a safe integer (see
    [safe_integer]), where the division cannot move it across a half. *)
Definition Math_round_div (n d : Z) : Z := (2 * n + d) / (2 * d).

(** ** call.ts: interfaces *)

Abbreviation MediaStream := nat.

Record RTCConnection := {
  getLocalStreams : list MediaStream;
  getRemoteStreams : list MediaStream }.

Record SipSession := {
  session_id : string;
  connection : option RTCConnection }.

Record QueueParameters := {
  attempt_id : Z;
  member_id : Z;
  queue_id : Z;
  queue_name : string;
  queue_type : string;
  side : string;
  resource_id : option Z }.

Record CallEndpoint := {
  ep_type : option string;
  ep_number : option string;
  ep_id : option string;
  ep_name : option string }.

Record CallParams := {
  cp_audio : option bool;
  cp_video : option bool;
  cp_screen : option bool;
  cp_disableStun : option bool }.

(** The object carried in [CallEventData.data].  The code reads it through
    the casts [as CallInfo], [as CallBridged], [as CallHangup],
    [as CallEventExecute] and [as CallEventDTMF], which check nothing: every
    property may be missing. *)
Record EventPayload := {
  d_sip_id : option string;
  d_parent_id : option string;
  d_direction : option string;
  d_destination : option string;
  d_queue : option QueueParameters;
  d_from : option CallEndpoint;
  d_to : option CallEndpoint;
  d_payload : option (list (string * string));
  d_params : option CallParams;
  d_bridged_id : option string;
  d_cause : option string;
  d_sip : option Z;
  d_application : option string;
  d_digit : option string }.

Record CallEventData := {
  e_id : string;
  e_app_id : string;
  e_timestamp : Z;
  e_event : string;
  e_data : option EventPayload }.

(** [enum CallActions] *)
Module CallActions.
Definition Ringing := "ringing".
Definition Active := "active".
Definition Bridge := "bridge".
Definition Hold := "hold".
Definition DTMF := "dtmf".
Definition Voice := "voice".
Definition Silence := "silence".
Definition Execute := "execute".
Definition Update := "update".
Definition Hangup := "hangup".
Definition PeerStream := "peerStream".
Definition LocalStream := "localStream".
End CallActions.

(** [enum CallDirection] *)
Module CallDirection.
Definition Inbound := "inbound".
Definition Outbound := "outbound".
End CallDirection.

(** ** call.ts: class Call, the fields *)

Record Call := {
  id : string;
  appId : string;
  sipId : option string;
  state : string;
  params : option CallParams;
  direction : option string;
  destination : option string;
  from : option CallEndpoint;
  to : option CallEndpoint;
  payload : option (list (string * string));
  peerStreams : option (list MediaStream);
  localStreams : option (list MediaStream);
  sip : option SipSession;
  createdAt : Z;
  answeredAt : Z;
  bridgedAt : Z;
  hangupAt : Z;
  hangupCause : option string;
  hangupSipCode : option Z;
  parentId : option string;
  bridgedId : option string;
  queue : option QueueParameters;
  _muted : bool;
  digits : list (option string);
  applications : list (option string);
  voice : bool }.

(** Field assignments [this.f = v]. *)

Definition set_state (v : string) (c : Call) : Call :=
  {| id := id c; appId := appId c; sipId := sipId c; state := v;
     params := params c; direction := direction c;
     destination := destination c; from := from c; to := to c;
     payload := payload c; peerStreams := peerStreams c;
     localStreams := localStreams c; sip := sip c; createdAt := createdAt c;
     answeredAt := answeredAt c; bridgedAt := bridgedAt c;
     hangupAt := hangupAt c; hangupCause := hangupCause c;
     hangupSipCode := hangupSipCode c; parentId := parentId c;
     bridgedId := bridgedId c; queue := queue c; _muted := _muted c;
     digits := digits c; applications := applications c; voice := voice c |}.

Definition set_to (v : option CallEndpoint) (c : Call) : Call :=
  {| id := id c; appId := appId c; sipId := sipId c; state := state c;
     params := params c; direction := direction c;
     destination := destination c; from := from c; to := v;
     payload := payload c; peerStreams := peerStreams c;
     localStreams := localStreams c; sip := sip c; createdAt := createdAt c;
     answeredAt := answeredAt c; bridgedAt := bridgedAt c;
     hangupAt := hangupAt c; hangupCause := hangupCause c;
     hangupSipCode := hangupSipCode c; parentId := parentId c;
     bridgedId := bridgedId c; queue := queue c; _muted := _muted c;
     digits := digits c; applications := applications c; voice := voice c |}.

Definition set_peerStreams (v : option (list MediaStream)) (c : Call) : Call :=
  {| id := id c; appId := appId c; sipId := sipId c; state := state c;
     params := params c; direction := direction c;
     destination := destination c; from := from c; to := to c;
     payload := payload c; peerStreams := v; localStreams := localStreams c;
     sip := sip c; createdAt := createdAt c; answeredAt := answeredAt c;
     bridgedAt := bridgedAt c; hangupAt := hangupAt c;
     hangupCause := hangupCause c; hangupSipCode := hangupSipCode c;
     parentId := parentId c; bridgedId := bridgedId c; queue := queue c;
     _muted := _muted c; digits := digits c; applications := applications c;
     voice := voice c |}.

Definition set_localStreams (v : option (list MediaStream)) (c : Call) : Call :=
  {| id := id c; appId := appId c; sipId := sipId c; state := state c;
     params := params c; direction := direction c;
     destination := destination c; from := from c; to := to c;
     payload := payload c; peerStreams := peerStreams c; localStreams := v;
     sip := sip c; createdAt := createdAt c; answeredAt := answeredAt c;
     bridgedAt := bridgedAt c; hangupAt := hangupAt c;
     hangupCause := hangupCause c; hangupSipCode := hangupSipCode c;
     parentId := parentId c; bridgedId := bridgedId c; queue := queue c;
     _muted := _muted c; digits := digits c; applications := applications c;
     voice := voice c |}.

Definition set_sip (v : option SipSession) (c : Call) : Call :=
  {| id := id c; appId := appId c; sipId := sipId c; state := state c;
     params := params c; direction := direction c;
     destination := destination c; from := from c; to := to c;
     payload := payload c; peerStreams := peerStreams c;
     localStreams := localStreams c; sip := v; createdAt := createdAt c;
     answeredAt := answeredAt c; bridgedAt := bridgedAt c;
     hangupAt := hangupAt c; hangupCause := hangupCause c;
     hangupSipCode := hangupSipCode c; parentId := parentId c;
     bridgedId := bridgedId c; queue := queue c; _muted := _muted c;
     digits := digits c; applications := applications c; voice := voice c |}.

Definition set_answeredAt (v : Z) (c : Call) : Call :=
  {| id := id c; appId := appId c; sipId := sipId c; state := state c;
     params := params c; direction := direction c;
     destination := destination c; from := from c; to := to c;
     payload := payload c; peerStreams := peerStreams c;
     localStreams := localStreams c; sip := sip c; createdAt := createdAt c;
     answeredAt := v; bridgedAt := bridgedAt c; hangupAt := hangupAt c;
     hangupCause := hangupCause c; hangupSipCode := hangupSipCode c;
     parentId := parentId c; bridgedId := bridgedId c; queue := queue c;
     _muted := _muted c; digits := digits c; applications := applications c;
     voice := voice c |}.

Definition set_bridgedAt (v : Z) (c : Call) : Call :=
  {| id := id c; appId := appId c; sipId := sipId c; state := state c;
     params := params c; direction := direction c;
     destination := destination c; from := from c; to := to c;
     payload := payload c; peerStreams := peerStreams c;
     localStreams := localStreams c; sip := sip c; createdAt := createdAt c;
     answeredAt := answeredAt c; bridgedAt := v; hangupAt := hangupAt c;
     hangupCause := hangupCause c; hangupSipCode := hangupSipCode c;
     parentId := parentId c; bridgedId := bridgedId c; queue := queue c;
     _muted := _muted c; digits := digits c; applications := applications c;
     voice := voice c |}.

Definition set_hangupAt (v : Z) (c : Call) : Call :=
  {| id := id c; appId := appId c; sipId := sipId c; state := state c;
     params := params c; direction := direction c;
     destination := destination c; from := from c; to := to c;
     payload := payload c; peerStreams := peerStreams c;
     localStreams := localStreams c; sip := sip c; createdAt := createdAt c;
     answeredAt := answeredAt c; bridgedAt := bridgedAt c; hangupAt := v;
     hangupCause := hangupCause c; hangupSipCode := hangupSipCode c;
     parentId := parentId c; bridgedId := bridgedId c; queue := queue c;
     _muted := _muted c; digits := digits c; applications := applications c;
     voice := voice c |}.

Definition set_hangupCause (v : option string) (c : Call) : Call :=
  {| id := id c; appId := appId c; sipId := sipId c; state := state c;
     params := params c; direction := direction c;
     destination := destination c; from := from c; to := to c;
     payload := payload c; peerStreams := peerStreams c;
     localStreams := localStreams c; sip := sip c; createdAt := createdAt c;
     answeredAt := answeredAt c; bridgedAt := bridgedAt c;
     hangupAt := hangupAt c; hangupCause := v;
     hangupSipCode := hangupSipCode c; parentId := parentId c;
     bridgedId := bridgedId c; queue := queue c; _muted := _muted c;
     digits := digits c; applications := applications c; voice := voice c |}.

Definition set_hangupSipCode (v : option Z) (c : Call) : Call :=
  {| id := id c; appId := appId c; sipId := sipId c; state := state c;
     params := params c; direction := direction c;
     destination := destination c; from := from c; to := to c;
     payload := payload c; peerStreams := peerStreams c;
     localStreams := localStreams c; sip := sip c; createdAt := createdAt c;
     answeredAt := answeredAt c; bridgedAt := bridgedAt c;
     hangupAt := hangupAt c; hangupCause := hangupCause c;
     hangupSipCode := v; parentId := parentId c; bridgedId := bridgedId c;
     queue := queue c; _muted := _muted c; digits := digits c;
     applications := applications c; voice := voice c |}.

Definition set_bridgedId (v : option string) (c : Call) : Call :=
  {| id := id c; appId := appId c; sipId := sipId c; state := state c;
     params := params c; direction := direction c;
     destination := destination c; from := from c; to := to c;
     payload := payload c; peerStreams := peerStreams c;
     localStreams := localStreams c; sip := sip c; createdAt := createdAt c;
     answeredAt := answeredAt c; bridgedAt := bridgedAt c;
     hangupAt := hangupAt c; hangupCause := hangupCause c;
     hangupSipCode := hangupSipCode c; parentId := parentId c;
     bridgedId := v; queue := queue c; _muted := _muted c;
     digits := digits c; applications := applications c; voice := voice c |}.

Definition set_muted (v : bool) (c : Call) : Call :=
  {| id := id c; appId := appId c; sipId := sipId c; state := state c;
     params := params c; direction := direction c;
     destination := destination c; from := from c; to := to c;
     payload := payload c; peerStreams := peerStreams c;
     localStreams := localStreams c; sip := sip c; createdAt := createdAt c;
     answeredAt := answeredAt c; bridgedAt := bridgedAt c;
     hangupAt := hangupAt c; hangupCause := hangupCause c;
     hangupSipCode := hangupSipCode c; parentId := parentId c;
     bridgedId := bridgedId c; queue := queue c; _muted := v;
     digits := digits c; applications := applications c; voice := voice c |}.

Definition set_digits (v : list (option string)) (c : Call) : Call :=
  {| id := id c; appId := appId c; sipId := sipId c; state := state c;
     params := params c; direction := direction c;
     destination := destination c; from := from c; to := to c;
     payload := payload c; peerStreams := peerStreams c;
     localStreams := localStreams c; sip := sip c; createdAt := createdAt c;
     answeredAt := answeredAt c; bridgedAt := bridgedAt c;
     hangupAt := hangupAt c; hangupCause := hangupCause c;
     hangupSipCode := hangupSipCode c; parentId := parentId c;
     bridgedId := bridgedId c; queue := queue c; _muted := _muted c;
     digits := v; applications := applications c; voice := voice c |}.

Definition set_applications (v : list (option string)) (c : Call) : Call :=
  {| id := id c; appId := appId c; sipId := sipId c; state := state c;
     params := params c; direction := direction c;
     destination := destination c; from := from c; to := to c;
     payload := payload c; peerStreams := peerStreams c;
     localStreams := localStreams c; sip := sip c; createdAt := createdAt c;
     answeredAt := answeredAt c; bridgedAt := bridgedAt c;
     hangupAt := hangupAt c; hangupCause := hangupCause c;
     hangupSipCode := hangupSipCode c; parentId := parentId c;
     bridgedId := bridgedId c; queue := queue c; _muted := _muted c;
     digits := digits c; applications := v; voice := voice c |}.

Definition set_voice (v : bool) (c : Call) : Call :=
  {| id := id c; appId := appId c; sipId := sipId c; state := state c;
     params := params c; direction := direction c;
     destination := destination c; from := from c; to := to c;
     payload := payload c; peerStreams := peerStreams c;
     localStreams := localStreams c; sip := sip c; createdAt := createdAt c;
     answeredAt := answeredAt c; bridgedAt := bridgedAt c;
     hangupAt := hangupAt c; hangupCause := hangupCause c;
     hangupSipCode := hangupSipCode c; parentId := parentId c;
     bridgedId := bridgedId c; queue := queue c; _muted := _muted c;
     digits := digits c; applications := applications c; voice := v |}.

(** ** call.ts: class Call, the methods that only touch the object *)

(** The part of the phone collaborator ([./sip]) the constructor calls. *)
Record SipPhone := {
  sipSessionBySipId : string -> option SipSession;
  sipSessionByCallId : string -> option SipSession }.

(** [o === s] for a possibly missing string [o]. *)
Definition str_is (o : option string) (s : string) : bool :=
  match o with
  | Some x => (x =? s)%string
  | None => false
  end.

Definition non_empty (l : list MediaStream) : option (list MediaStream) :=
  match l with
  | [] => None
  | _ :: _ => Some l
  end.

Definition setState (s : CallEventData) (c : Call) : Call :=
  set_state (e_event s) c.

Definition setSip (s : option SipSession) (c : Call) : Call :=
  match s, sip c with
  | Some x, None =>
      let c := set_sip (Some x) c in
      match connection x with
      | Some conn =>
          let c := set_localStreams (non_empty (getLocalStreams conn)) c in
          set_peerStreams (non_empty (getRemoteStreams conn)) c
      | None => c
      end
  | _, _ => c
  end.

(** [get duration()], with [Date.now()] as [now].  The subtraction is the
    one of the integers; the code subtracts doubles, which is the same
    where [exact_subtraction] holds. *)
Definition duration (now : Z) (c : Call) : Z :=
  if hangupAt c =? 0
  then Math_round_div (now - createdAt c) 1000
  else Math_round_div (hangupAt c - createdAt c) 1000.

Definition allowHangup (c : Call) : bool := hangupAt c =? 0.

Definition allowDtmf (c : Call) : bool := (answeredAt c >? 0) && allowHangup c.

Definition allowHold (c : Call) : bool :=
  (hangupAt c =? 0) && ((state c =? "active") || (state c =? "bridge"))%string.

Definition allowAnswer (c : Call) : bool :=
  (hangupAt c =? 0) && (answeredAt c =? 0).

Definition allowUnHold (c : Call) : bool :=
  (hangupAt c =? 0) && (state c =? "hold")%string.

Definition setActive (e : CallEventData) (c : Call) : Call :=
  let c :=
    if answeredAt c =? 0 then
      let c :=
        if str_is (direction c) CallDirection.Inbound then
          let c := set_bridgedAt (e_timestamp e) c in
          if truthy (parentId c) then set_bridgedId (parentId c) c else c
        else c in
      set_answeredAt (e_timestamp e) c
    else c in
  setState e c.

Definition setBridged (s : CallEventData) (c : Call) : Call * completion unit :=
  let c := if bridgedAt c =? 0 then set_bridgedAt (e_timestamp s) c else c in
  match e_data s with
  | None => (c, Throw TypeError)
  | Some bridged =>
      let c := set_bridgedId (d_bridged_id bridged) c in
      let c := match d_to bridged with
               | Some t => set_to (Some t) c
               | None => c
               end in
      (set_bridgedId (d_bridged_id bridged) c, Normal tt)
  end.

Definition setHold (e : CallEventData) (c : Call) : Call := setState e c.

Definition setInfo (s : EventPayload) (c : Call) : Call :=
  {| id := id c; appId := appId c; sipId := or_null (d_sip_id s);
     state := state c; params := d_params s; direction := d_direction s;
     destination := d_destination s; from := d_from s; to := d_to s;
     payload := d_payload s; peerStreams := peerStreams c;
     localStreams := localStreams c; sip := sip c; createdAt := createdAt c;
     answeredAt := answeredAt c; bridgedAt := bridgedAt c;
     hangupAt := hangupAt c; hangupCause := hangupCause c;
     hangupSipCode := hangupSipCode c; parentId := d_parent_id s;
     bridgedId := bridgedId c; queue := d_queue s; _muted := _muted c;
     digits := digits c; applications := applications c; voice := voice c |}.

Definition setPeerStreams (streams : option (list MediaStream)) (c : Call) : Call :=
  set_peerStreams streams c.

Definition setLocalStreams (streams : option (list MediaStream)) (c : Call) : Call :=
  set_localStreams streams c.

Definition setVoice (c : Call) : Call := set_voice true c.

Definition setSilence (c : Call) : Call := set_voice false c.

Definition setExecute (s : option EventPayload) (c : Call) : Call * completion unit :=
  match s with
  | None => (c, Throw TypeError)
  | Some x => (set_applications (applications c ++ [d_application x]) c, Normal tt)
  end.

Definition addDigit (s : option EventPayload) (c : Call) : Call * completion unit :=
  match s with
  | None => (c, Throw TypeError)
  | Some x => (set_digits (digits c ++ [d_digit x]) c, Normal tt)
  end.

Definition setHangup (s : CallEventData) (c : Call) : Call * completion unit :=
  let c := set_hangupAt (e_timestamp s) c in
  match e_data s with
  | None => (c, Throw TypeError)
  | Some hangup =>
      let c := set_hangupCause (d_cause hangup) c in
      let c := set_hangupSipCode (d_sip hangup) c in
      let c := set_voice false c in
      let c := set_peerStreams None c in
      (setState s c, Normal tt)
  end.

Definition muted (c : Call) : bool := _muted c.

Definition isHold (c : Call) : bool := (state c =? CallActions.Hold)%string.

Definition active (c : Call) : bool := hangupAt c =? 0.

Definition autoAnswer (c : Call) : bool :=
  match queue c with
  | Some q => ((queue_type q =? "offline") || (queue_type q =? "preview"))%string
  | None => false
  end.

(** [new Call(client, e)]: only [client.phone] is read from the client.  The
    object escapes only when the constructor returns. *)
Definition new_Call (phone : option SipPhone) (e : CallEventData) : completion Call :=
  match e_data e with
  | None => Throw TypeError
  | Some callInfo =>
      match phone with
      | None => Throw TypeError
      | Some ph =>
          let this :=
            {| id := e_id e; appId := e_app_id e; sipId := None; state := "";
               params := None; direction := None; destination := None;
               from := None; to := None; payload := None; peerStreams := None;
               localStreams := None; sip := None;
               createdAt := e_timestamp e; answeredAt := 0; bridgedAt := 0;
               hangupAt := 0; hangupCause := None; hangupSipCode := None;
               parentId := None; bridgedId := None; queue := None;
               _muted := false; digits := []; applications := [];
               voice := true |} in
          let this :=
            match d_sip_id callInfo with
            | Some sid =>
                if truthy (Some sid)
                then setSip (sipSessionBySipId ph sid) this
                else setSip (sipSessionByCallId ph (e_id e)) this
            | None => setSip (sipSessionByCallId ph (e_id e)) this
            end in
          let this := set_peerStreams None this in
          let this := set_localStreams None this in
          let this := setState e this in
          Normal (setInfo callInfo this)
      end
  end.

(** ** client.ts: messages, effects and the client object *)

Record Config := {
  endpoint : string;
  token : option string;
  registerWebDevice : option bool;
  debug : option bool }.

Definition WEBSOCKET_AUTHENTICATION_CHALLENGE := "authentication_challenge".
Definition WEBSOCKET_DEFAULT_DEVICE_CONFIG := "user_default_device".
Definition WEBSOCKET_MAKE_OUTBOUND_CALL := "call_invite".
Definition WEBSOCKET_MAKE_USER_CALL := "call_user".
Definition WEBSOCKET_EVENT_HELLO := "hello".
Definition WEBSOCKET_EVENT_CALL := "call".
Definition WEBSOCKET_EVENT_USER_STATE := "user_state".
Definition WEBSOCKET_EVENT_AGENT_STATUS := "agent_status".
Definition WEBSOCKET_EVENT_QUEUE_JOIN_MEMBER := "queue_join_member".
Definition WEBSOCKET_EVENT_SIP := "sip".

(** [enum Response] *)
Module Response.
Definition STATUS_FAIL := "FAIL".
Definition STATUS_OK := "OK".
End Response.

Record Session := {
  s_id : option string;
  s_user_id : option Z }.

(** The object in [Message.data].  A reply hands it to [resolve] as it is;
    the router reads it as [ConnectionInfo] ([sock_id], [session]) or takes
    its [call], [state] or [status] property. *)
Record MessageData := {
  md_sock_id : option string;
  md_server_version : option string;
  md_session : option Session;
  md_call : option CallEventData;
  md_state : option JObject;
  md_status : option JObject;
  md_rest : JObject }.

(** [interface Message] of [./socket], the properties [onMessage] reads. *)
Record Message := {
  seq_reply : option Z;
  status : option string;
  data : option MessageData;
  error : option JObject;
  event : option string }.

(** What [socket.send] is given. *)
Record Frame := {
  seq : Z;
  action : string;
  f_data : option JObject }.

(** A reference to a [Call] object: its index in the store. *)
Abbreviation ref := nat.

(** A function given to one of the [subscribe...] methods, by identity. *)
Abbreviation Handler := nat.

Record AnswerRequest := {
  ar_audio : option bool;
  ar_video : option bool;
  ar_screen : option bool;
  ar_disableStun : option bool }.

Inductive Settlement :=
| Resolved (res : option MessageData)
| Refused (err : option JObject).

Inductive EmitArgs :=
| CallArgs (action : string) (call : ref)
| UserStateArgs (state : option JObject)
| SipArgs (data : option MessageData)
| AgentStatusArgs (status : option JObject).

Inductive LogLevel := Debug | Err.

Inductive LogArg :=
| LStr (s : string)
| LMessage (m : Message)
| LObject (o : option JObject).

(** The calls the client makes to its collaborators, in order. *)
Inductive Effect :=
| Send (f : Frame)
| Settle (promise : nat) (s : Settlement)
| Invoke (channel : string) (handler : Handler) (args : EmitArgs)
| Log (level : LogLevel) (args : list LogArg)
| PhoneRegister (conf : option MessageData)
| SipAnswer (call : ref) (req : AnswerRequest).

(** What runs after [await this.request(...)] once the request settles. *)
Inductive Continuation :=
| KReturn
| KSubscribe (channel : string) (handler : Handler)
| KMute (call : ref) (mute : bool)
| KDeviceConfig.

(** [interface PromiseCallback]: the [resolve] and [reject] of one promise.
    The promise is named by the number of requests made before the one that
    created it. *)
Record PromiseCallback := {
  promise : nat;
  await : Continuation }.

(** The state of the promise an [async] method returns. *)
Inductive Async (A : Type) :=
| Fulfilled (a : A)
| Rejected (e : Exn)
| Pending.
Arguments Fulfilled {A} a.
Arguments Rejected {A} e.
Arguments Pending {A}.

Record Client := {
  _config : Config;
  phone : option SipPhone;
  connectionInfo : option MessageData;
  reqSeq : Z;
  queueRequest : gmap Z PromiseCallback;
  eventHandler : gmap string (list Handler);
  callStore : gmap string ref;
  heap : list Call;
  trace : list Effect }.

Definition set_phone (v : option SipPhone) (c : Client) : Client :=
  {| _config := _config c; phone := v; connectionInfo := connectionInfo c;
     reqSeq := reqSeq c; queueRequest := queueRequest c;
     eventHandler := eventHandler c; callStore := callStore c;
     heap := heap c; trace := trace c |}.

Definition set_connectionInfo (v : option MessageData) (c : Client) : Client :=
  {| _config := _config c; phone := phone c; connectionInfo := v;
     reqSeq := reqSeq c; queueRequest := queueRequest c;
     eventHandler := eventHandler c; callStore := callStore c;
     heap := heap c; trace := trace c |}.

Definition set_reqSeq (v : Z) (c : Client) : Client :=
  {| _config := _config c; phone := phone c; connectionInfo := connectionInfo c;
     reqSeq := v; queueRequest := queueRequest c;
     eventHandler := eventHandler c; callStore := callStore c;
     heap := heap c; trace := trace c |}.

Definition set_queueRequest (v : gmap Z PromiseCallback) (c : Client) : Client :=
  {| _config := _config c; phone := phone c; connectionInfo := connectionInfo c;
     reqSeq := reqSeq c; queueRequest := v;
     eventHandler := eventHandler c; callStore := callStore c;
     heap := heap c; trace := trace c |}.

Definition set_eventHandler (v : gmap string (list Handler)) (c : Client) : Client :=
  {| _config := _config c; phone := phone c; connectionInfo := connectionInfo c;
     reqSeq := reqSeq c; queueRequest := queueRequest c;
     eventHandler := v; callStore := callStore c;
     heap := heap c; trace := trace c |}.

Definition set_callStore (v : gmap string ref) (c : Client) : Client :=
  {| _config := _config c; phone := phone c; connectionInfo := connectionInfo c;
     reqSeq := reqSeq c; queueRequest := queueRequest c;
     eventHandler := eventHandler c; callStore := v;
     heap := heap c; trace := trace c |}.

Definition set_heap (v : list Call) (c : Client) : Client :=
  {| _config := _config c; phone := phone c; connectionInfo := connectionInfo c;
     reqSeq := reqSeq c; queueRequest := queueRequest c;
     eventHandler := eventHandler c; callStore := callStore c;
     heap := v; trace := trace c |}.

(** One more call to a collaborator. *)
Definition effect (e : Effect) (c : Client) : Client :=
  {| _config := _config c; phone := phone c; connectionInfo := connectionInfo c;
     reqSeq := reqSeq c; queueRequest := queueRequest c;
     eventHandler := eventHandler c; callStore := callStore c;
     heap := heap c; trace := trace c ++ [e] |}.

(** [new Client(config)], with its socket open. *)
Definition new_Client (config : Config) : Client :=
  {| _config := config; phone := None; connectionInfo := None; reqSeq := 0;
     queueRequest := ∅; eventHandler := ∅; callStore := ∅; heap := [];
     trace := [] |}.

(** *** The event emitter ([ee-ts]) *)

Definition listeners (channel : string) (c : Client) : list Handler :=
  default [] (eventHandler c !! channel).

Definition on (channel : string) (handler : Handler) (c : Client) : Client :=
  set_eventHandler
    (<[channel := listeners channel c ++ [handler]]> (eventHandler c)) c.

Definition emit (channel : string) (args : EmitArgs) (c : Client) : Client :=
  foldl (fun c h => effect (Invoke channel h args) c) c (listeners channel c).

(** *** The request correlator *)

(** The frames handed to the socket so far, and the promises settled so
    far, as the trace has them. *)
Definition sends (t : list Effect) : list Frame :=
  omap (fun e => match e with Send f => Some f | _ => None end) t.

Definition settlements (t : list Effect) : list (nat * Settlement) :=
  omap (fun e => match e with Settle p s => Some (p, s) | _ => None end) t.

Definition invocations (t : list Effect) : list (string * Handler * EmitArgs) :=
  omap (fun e => match e with Invoke ch h a => Some (ch, h, a) | _ => None end) t.

(** [request(action, data)].  [k] is what the caller does after awaiting
    the returned promise. *)
Definition request (action : string) (data : option JObject) (k : Continuation)
    (c : Client) : Client :=
  let c := set_reqSeq (reqSeq c + 1) c in
  let c := set_queueRequest
             (<[reqSeq c := {| promise := length (sends (trace c)); await := k |}]>
                (queueRequest c)) c in
  effect (Send {| seq := reqSeq c; action := action; f_data := data |}) c.

Definition subscribe (action channel : string) (handler : Handler)
    (data : option JObject) (c : Client) : Client :=
  request action data (KSubscribe channel handler) c.

Definition subscribeCall := subscribe "subscribe_call" WEBSOCKET_EVENT_CALL.

Definition subscribeQueueJoinMember :=
  subscribe "subscribe_queue_join_member" WEBSOCKET_EVENT_QUEUE_JOIN_MEMBER.

Definition subscribeUsersStatus :=
  subscribe "subscribe_users_status" WEBSOCKET_EVENT_USER_STATE.

Definition subscribeAgentsStatus :=
  subscribe "cc_agent_subscribe_status" WEBSOCKET_EVENT_AGENT_STATUS.

(** The body of [unSubscribe] after the [await] only returns: the three
    statements that would take the handler off are comments. *)
Definition unSubscribe (action : string) (handler : Handler)
    (data : option JObject) (c : Client) : Client :=
  request ("un_subscribe_" ++ action)%string data KReturn c.

Definition callById (id : string) (c : Client) : option ref := callStore c !! id.

Definition auth (c : Client) : Client :=
  request WEBSOCKET_AUTHENTICATION_CHALLENGE
    (Some [("token", opt_str (token (_config c)))]) KReturn c.

Definition invite (req : JObject) (c : Client) : Client :=
  request WEBSOCKET_MAKE_OUTBOUND_CALL (Some req) KReturn c.

Definition useWebPhone (c : Client) : bool :=
  default false (registerWebDevice (_config c)).

(** ** call.ts: class Call, call control

    [this] is the reference of the object and [obj] its fields when the
    method is called. *)

Definition call_key (obj : Call) : JObject :=
  [("id", JStr (id obj)); ("app_id", JStr (appId obj))].

Definition answer (this : ref) (obj : Call) (req : AnswerRequest) (c : Client)
    : Client * Async bool :=
  match sip obj with
  | Some _ => (effect (SipAnswer this req) c, Fulfilled true)
  | None => (c, Fulfilled false)
  end.

Definition hangup (obj : Call) (cause : option string) (c : Client)
    : Client * Async unit :=
  let _cause :=
    if (answeredAt obj =? 0) && negb (truthy cause)
    then Some (if str_is (direction obj) CallDirection.Inbound
               then "USER_BUSY" else "ORIGINATOR_CANCEL")
    else cause in
  (request "call_hangup" (Some (call_key obj ++ [("cause", opt_str _cause)]))
     KReturn c, Pending).

Definition hold (obj : Call) (c : Client) : Client * Async unit :=
  if (state obj =? CallActions.Hold)%string
  then (c, Rejected (Error "Call is hold"))
  else (request "call_hold" (Some (call_key obj)) KReturn c, Pending).

Definition unHold (obj : Call) (c : Client) : Client * Async unit :=
  if negb (state obj =? CallActions.Hold)%string
  then (c, Rejected (Error "Call is active"))
  else (request "call_unhold" (Some (call_key obj)) KReturn c, Pending).

Definition toggleHold (obj : Call) (c : Client) : Client * Async unit :=
  if (state obj =? CallActions.Hold)%string then unHold obj c else hold obj c.

Definition sendDTMF (obj : Call) (dtmf : string) (c : Client)
    : Client * Async unit :=
  (request "call_dtmf" (Some (call_key obj ++ [("dtmf", JStr dtmf)]))
     KReturn c, Pending).

Definition blindTransfer (obj : Call) (destination : string) (c : Client)
    : Client * Async unit :=
  (request "call_blind_transfer"
     (Some (call_key obj ++ [("destination", JStr destination)]))
     KReturn c, Pending).

(** [mute(mute = false)]: the assignment to [_muted] is after the [await]. *)
Definition mute (this : ref) (obj : Call) (m : option bool) (c : Client)
    : Client * Async unit :=
  let m := default false m in
  (request "call_mute" (Some (call_key obj ++ [("mute", JBool m)]))
     (KMute this m) c, Pending).

Definition bridgeTo (obj call : Call) (c : Client) : Client * Async unit :=
  (request "call_bridge"
     (Some [("from_id", JStr (id obj)); ("from_app_id", JStr (appId obj));
            ("to_id", JStr (id call)); ("to_app_id", JStr (appId call))])
     KReturn c, Pending).

(** ** client.ts: the inbound router and the call registry *)

Section router.

(** The browser and the phone constructor, which the router reads. *)
Variable document_hidden : bool.
Variable new_SipPhone : option string -> option bool -> SipPhone.

(** A possibly missing string in a template string.  [None] reads as an
    absent property does, [undefined]; a property present with the JSON
    value [null] reads "null" in the code, so the text of a missing value
    is the code's for an absent property. *)
Definition show_str (s : option string) : string := default "undefined" s.

Definition show_num (n : option Z) : string :=
  match n with
  | Some z => pretty z
  | None => "undefined"
  end.

(** The [log.debug] that follows [await this.connected(...)]. *)
Definition log_opened (c : Client) : Client * Async unit :=
  match connectionInfo c with
  | None => (c, Rejected TypeError)
  | Some info =>
      match md_session info with
      | None => (c, Rejected TypeError)
      | Some s =>
          (effect (Log Debug [LStr ("opened session " ++ show_str (md_sock_id info)
                                    ++ " for userId=" ++ show_num (s_user_id s))%string]) c,
           Fulfilled tt)
      end
  end.

Definition connected (info : option MessageData) (c : Client)
    : Client * Async unit :=
  let c := set_connectionInfo info c in
  match info with
  | None => (c, Rejected TypeError)
  | Some i =>
      let c := set_phone (Some (new_SipPhone (md_sock_id i) (debug (_config c)))) c in
      if useWebPhone c
      then (request WEBSOCKET_DEFAULT_DEVICE_CONFIG (Some []) KDeviceConfig c, Pending)
      else (c, Fulfilled tt)
  end.

(** The rest of an [async] method once the request it awaits settles:
    [subscribe...] adds the handler, [mute] assigns [_muted], and both do
    nothing when the request is refused ([await] throws); [connected] hands
    the device configuration to [phone.register] or, in its [catch], logs
    the error, and [onMessage] then logs the opened session. *)
Definition resume (k : Continuation) (s : Settlement) (c : Client) : Client :=
  match k, s with
  | KSubscribe channel handler, Resolved _ => on channel handler c
  | KMute call m, Resolved _ => set_heap (alter (set_muted m) call (heap c)) c
  | KDeviceConfig, Resolved conf => (log_opened (effect (PhoneRegister conf) c)).1
  | KDeviceConfig, Refused e => (log_opened (effect (Log Err [LObject e]) c)).1
  | _, _ => c
  end.

(** [promise.resolve(...)] and [promise.reject(...)] *)
Definition settle (p : PromiseCallback) (s : Settlement) (c : Client) : Client :=
  resume (await p) s (effect (Settle (promise p) s) c).

Definition checkAutoAnswer (call : ref) (obj : Call) (c : Client)
    : Client * Async unit :=
  if negb document_hidden && autoAnswer obj then
    match params obj with
    | None => (c, Rejected TypeError)
    | Some p =>
        let (c, _) := answer call obj
                        {| ar_audio := None; ar_video := cp_video p;
                           ar_screen := cp_screen p;
                           ar_disableStun := cp_disableStun p |} c in
        (c, Fulfilled tt)
    end
  else (c, Fulfilled tt).

(** [call = this.callById(event.id); if (call) { call.method(...); rest }]
    and the [emit] at the end of [handleCallEvents]. *)
Definition on_call (event : CallEventData)
    (method : Call -> Call * completion unit) (rest : Call -> Client -> Client)
    (c : Client) : Client * Async unit :=
  match callById (e_id event) c with
  | None => (c, Fulfilled tt)
  | Some call =>
      match heap c !! call with
      | None => (c, Fulfilled tt)
      | Some obj =>
          let (obj, r) := method obj in
          let c := set_heap (<[call := obj]> (heap c)) c in
          match r with
          | Throw e => (c, Rejected e)
          | Normal _ =>
              (emit WEBSOCKET_EVENT_CALL (CallArgs (e_event event) call)
                 (rest obj c), Fulfilled tt)
          end
      end
  end.

Definition total (f : Call -> Call) (obj : Call) : Call * completion unit :=
  (f obj, Normal tt).

Definition nothing (obj : Call) (c : Client) : Client := c.

(** [this.callStore.delete(call.id)] *)
Definition evict (obj : Call) (c : Client) : Client :=
  set_callStore (delete (id obj) (callStore c)) c.

Definition handleCallEvents (event : option CallEventData) (c : Client)
    : Client * Async unit :=
  match event with
  | None => (c, Rejected TypeError)
  | Some event =>
      let case a := (e_event event =? a)%string in
      if case CallActions.Ringing then
        match new_Call (phone c) event with
        | Throw e => (c, Rejected e)
        | Normal obj =>
            let call := length (heap c) in
            let c := set_heap (heap c ++ [obj]) c in
            let c := set_callStore (<[id obj := call]> (callStore c)) c in
            match checkAutoAnswer call obj c with
            | (c, Fulfilled _) =>
                (emit WEBSOCKET_EVENT_CALL (CallArgs (e_event event) call) c,
                 Fulfilled tt)
            | (c, r) => (c, r)
            end
        end
      else if case CallActions.Active then
        on_call event (total (setActive event)) nothing c
      else if case CallActions.Bridge then
        on_call event (setBridged event) nothing c
      else if case CallActions.Execute then
        on_call event (setExecute (e_data event)) nothing c
      else if case CallActions.DTMF then
        on_call event (addDigit (e_data event)) nothing c
      else if case CallActions.Voice then
        on_call event (total setVoice) nothing c
      else if case CallActions.Silence then
        on_call event (total setSilence) nothing c
      else if case CallActions.Hold then
        on_call event (total (setHold event)) nothing c
      else if case CallActions.Hangup then
        on_call event (setHangup event) evict c
      else (c, Rejected (Error "Unhandled action"))
  end.

Definition handleUserStateEvent (event : option JObject) (c : Client) : Client :=
  emit WEBSOCKET_EVENT_USER_STATE (UserStateArgs event) c.

Definition is_reply (message : Message) : bool :=
  match seq_reply message with
  | Some n => n >? 0
  | None => false
  end.

Definition onMessage (message : Message) (c : Client) : Client * Async unit :=
  let c := effect (Log Debug [LStr "receive message: "; LMessage message]) c in
  if is_reply message then
    let seq_reply := default 0 (seq_reply message) in
    match queueRequest c !! seq_reply with
    | Some promise =>
        let c := set_queueRequest (delete seq_reply (queueRequest c)) c in
        if str_is (status message) Response.STATUS_OK
        then (settle promise (Resolved (data message)) c, Fulfilled tt)
        else (settle promise (Refused (error message)) c, Fulfilled tt)
    | None => (c, Fulfilled tt)
    end
  else
    let case a := str_is (event message) a in
    if case WEBSOCKET_EVENT_HELLO then
      match connected (data message) c with
      | (c, Fulfilled _) => log_opened c
      | (c, r) => (c, r)
      end
    else if case WEBSOCKET_EVENT_CALL then
      match data message with
      | None => (c, Rejected TypeError)
      | Some d => handleCallEvents (md_call d) c
      end
    else if case WEBSOCKET_EVENT_USER_STATE then
      match data message with
      | None => (c, Rejected TypeError)
      | Some d => (handleUserStateEvent (md_state d) c, Fulfilled tt)
      end
    else if case WEBSOCKET_EVENT_SIP then
      (emit WEBSOCKET_EVENT_SIP (SipArgs (data message)) c, Fulfilled tt)
    else if case WEBSOCKET_EVENT_AGENT_STATUS then
      match data message with
      | None => (c, Rejected TypeError)
      | Some d =>
          (emit WEBSOCKET_EVENT_AGENT_STATUS (AgentStatusArgs (md_status d)) c,
           Fulfilled tt)
      end
    else
      (effect (Log Err [LStr ("event " ++ show_str (event message)
                              ++ " not handler")%string]) c,
       Fulfilled tt).

(** *** Runs of the client

    What the application and the transport can do to a connected client:
    call a public method of [Client], call a control method on a [Call] they
    hold a reference to, or deliver an inbound message. *)
Inductive Action :=
| DoRequest (action : string) (data : option JObject)
| DoSubscribe (action channel : string) (handler : Handler) (data : option JObject)
| DoUnSubscribe (action : string) (handler : Handler) (data : option JObject)
| DoAuth
| DoHold (call : ref)
| DoUnHold (call : ref)
| DoToggleHold (call : ref)
| DoMute (call : ref) (m : option bool)
| DoHangup (call : ref) (cause : option string)
| DoSendDTMF (call : ref) (dtmf : string)
| DoBlindTransfer (call : ref) (destination : string)
| DoBridgeTo (call other : ref)
| Receive (message : Message).

(** A method called on the object behind a reference. *)
Definition with_obj {A} (call : ref) (method : Call -> Client -> Client * A)
    (c : Client) : Client :=
  match heap c !! call with
  | Some obj => (method obj c).1
  | None => c
  end.

Definition step (c : Client) (a : Action) : Client :=
  match a with
  | DoRequest action data => request action data KReturn c
  | DoSubscribe action channel handler data => subscribe action channel handler data c
  | DoUnSubscribe action handler data => unSubscribe action handler data c
  | DoAuth => auth c
  | DoHold call => with_obj call hold c
  | DoUnHold call => with_obj call unHold c
  | DoToggleHold call => with_obj call toggleHold c
  | DoMute call m => with_obj call (fun obj => mute call obj m) c
  | DoHangup call cause => with_obj call (fun obj => hangup obj cause) c
  | DoSendDTMF call dtmf => with_obj call (fun obj => sendDTMF obj dtmf) c
  | DoBlindTransfer call destination =>
      with_obj call (fun obj => blindTransfer obj destination) c
  | DoBridgeTo call other =>
      with_obj call (fun obj c => (with_obj other (bridgeTo obj) c, tt)) c
  | Receive message => (onMessage message c).1
  end.

Definition run (acts : list Action) (c : Client) : Client := foldl step c acts.

End router.

(** ** A concrete session

    The inputs of the examples: a phone that knows no SIP session, a visible
    document, and the three events of one inbound call. *)

Definition no_sessions : SipPhone :=
  {| sipSessionBySipId := fun _ => None; sipSessionByCallId := fun _ => None |}.

Definition a_phone (sock_id : option string) (debug : option bool) : SipPhone :=
  no_sessions.

Definition a_config : Config :=
  {| endpoint := "wss://example.test/ws"; token := Some "secret";
     registerWebDevice := None; debug := None |}.

Definition no_data : MessageData :=
  {| md_sock_id := None; md_server_version := None; md_session := None;
     md_call := None; md_state := None; md_status := None; md_rest := [] |}.

Definition event_message (name : string) (d : MessageData) : Message :=
  {| seq_reply := None; status := None; data := Some d; error := None;
     event := Some name |}.

Definition hello_message : Message :=
  event_message WEBSOCKET_EVENT_HELLO
    {| md_sock_id := Some "sock-1"; md_server_version := Some "1.0";
       md_session := Some {| s_id := Some "sess"; s_user_id := Some 7 |};
       md_call := None; md_state := None; md_status := None; md_rest := [] |}.

Definition call_message (e : CallEventData) : Message :=
  event_message WEBSOCKET_EVENT_CALL
    {| md_sock_id := None; md_server_version := None; md_session := None;
       md_call := Some e; md_state := None; md_status := None; md_rest := [] |}.

Definition reply_ok (n : Z) : Message :=
  {| seq_reply := Some n; status := Some Response.STATUS_OK;
     data := Some no_data; error := None; event := None |}.

Definition reply_fail (n : Z) : Message :=
  {| seq_reply := Some n; status := Some Response.STATUS_FAIL; data := None;
     error := Some [("detail", JStr "denied")]; event := None |}.

Definition no_payload : EventPayload :=
  {| d_sip_id := None; d_parent_id := None; d_direction := None;
     d_destination := None; d_queue := None; d_from := None; d_to := None;
     d_payload := None; d_params := None; d_bridged_id := None;
     d_cause := None; d_sip := None; d_application := None; d_digit := None |}.

Definition call_event (id action : string) (timestamp : Z)
    (d : option EventPayload) : CallEventData :=
  {| e_id := id; e_app_id := "app-1"; e_timestamp := timestamp;
     e_event := action; e_data := d |}.

Definition ringing_c1 : CallEventData :=
  call_event "c1" "ringing" 1000
    (Some {| d_sip_id := None; d_parent_id := None;
             d_direction := Some "inbound"; d_destination := Some "100";
             d_queue := None;
             d_from := Some {| ep_type := None; ep_number := Some "555";
                               ep_id := None; ep_name := None |};
             d_to := None; d_payload := None; d_params := None;
             d_bridged_id := None; d_cause := None; d_sip := None;
             d_application := None; d_digit := None |}).

Definition active_c1 : CallEventData := call_event "c1" "active" 1005 None.

Definition hangup_c1 : CallEventData :=
  call_event "c1" "hangup" 1010
    (Some {| d_sip_id := None; d_parent_id := None; d_direction := None;
             d_destination := None; d_queue := None; d_from := None;
             d_to := None; d_payload := None; d_params := None;
             d_bridged_id := None; d_cause := Some "NORMAL_CLEARING";
             d_sip := Some 200; d_application := None; d_digit := None |}).

Definition bridge_c1 : CallEventData :=
  call_event "c1" "bridge" 1007
    (Some {| d_sip_id := None; d_parent_id := None; d_direction := None;
             d_destination := None; d_queue := None; d_from := None;
             d_to := Some {| ep_type := Some "user"; ep_number := Some "200";
                             ep_id := None; ep_name := Some "Bob" |};
             d_payload := None; d_params := None;
             d_bridged_id := Some "c2"; d_cause := None; d_sip := None;
             d_application := None; d_digit := None |}).

(** A client that has received the greeting. *)
Definition greeted : Client :=
  run false a_phone [Receive hello_message] (new_Client a_config).

(** ... and then the creation event of call "c1", which becomes object 0. *)
Definition ringing : Client :=
  run false a_phone [Receive (call_message ringing_c1)] greeted.

Definition answered : Client :=
  run false a_phone [Receive (call_message active_c1)] ringing.

Definition hung_up : Client :=
  run false a_phone [Receive (call_message hangup_c1)] answered.

(** The object that [new Call] builds from the creation event of "c1". *)
Definition c1_new : Call :=
  ltac:(let r := eval vm_compute in (new_Call (Some no_sessions) ringing_c1) in
        match r with Normal ?obj => exact obj end).

Definition c1_active : Call := setActive active_c1 c1_new.

Definition c1_held : Call := setHold (call_event "c1" "hold" 1006 None) c1_active.

(** An [active] event that carries the timestamp 0. *)
Definition active_at_0 : CallEventData := call_event "c1" "active" 0 None.

(** A run of [active] events on one call object. *)
Definition actives (es : list CallEventData) (c : Call) : Call :=
  foldl (fun c e => setActive e c) c es.

(** The event names [onMessage] has a [case] for, and the call actions
    [handleCallEvents] has a [case] for. *)
Definition routed_events : list string :=
  [WEBSOCKET_EVENT_HELLO; WEBSOCKET_EVENT_CALL; WEBSOCKET_EVENT_USER_STATE;
   WEBSOCKET_EVENT_SIP; WEBSOCKET_EVENT_AGENT_STATUS].

Definition handled_actions : list string :=
  [CallActions.Ringing; CallActions.Active; CallActions.Bridge;
   CallActions.Execute; CallActions.DTMF; CallActions.Voice;
   CallActions.Silence; CallActions.Hold; CallActions.Hangup].

(** A call event whose action, [update], is a member of [CallActions]
    without a [case]. *)
Definition update_c1 : CallEventData := call_event "c1" "update" 1006 None.

(** ** call.ts and client.ts: getters and the remaining call control *)

(** [o[k] = v] on a plain object: an own property keeps its place, a new
    one goes last. *)
Fixpoint set_prop (k : string) (v : Atom) (o : JObject) : JObject :=
  match o with
  | [] => [(k, v)]
  | (k', v') :: o' =>
      if (k' =? k)%string then (k, v) :: o' else (k', v') :: set_prop k v o'
  end.

(** [o[k]] on a plain object. *)
Fixpoint get_prop (k : string) (o : JObject) : Atom :=
  match o with
  | [] => JUndefined
  | (k', v') :: o' => if (k' =? k)%string then v' else get_prop k o'
  end.

(** [Call.eavesdrop(req)]: [req.id = this.id] and then the request with
    [req]. *)
Definition eavesdrop (obj : Call) (req : JObject) (c : Client)
    : Client * Async unit :=
  (request "call_eavesdrop" (Some (set_prop "id" (JStr (id obj)) req)) KReturn c,
   Pending).




(** [sessionInfo()], [get version()] and [get instanceId()] of [Client] *)
Definition sessionInfo (c : Client) : completion (option Session) :=
  match connectionInfo c with
  | None => Throw TypeError
  | Some info => Normal (md_session info)
  end.

Definition version (c : Client) : completion (option string) :=
  match connectionInfo c with
  | None => Throw TypeError
  | Some info => Normal (md_server_version info)
  end.

Definition instanceId (c : Client) : completion (option string) :=
  match connectionInfo c with
  | None => Throw TypeError
  | Some info => Normal (md_sock_id info)
  end.

(** The channels [onMessage] and [handleCallEvents] emit on. *)
Definition published_channels : list string :=
  [WEBSOCKET_EVENT_CALL; WEBSOCKET_EVENT_USER_STATE; WEBSOCKET_EVENT_SIP;
   WEBSOCKET_EVENT_AGENT_STATUS].

(** What the constructor gives an object for good: no method assigns these
    fields. *)
Definition constructed (obj : Call) :=
  (id obj, appId obj, createdAt obj, direction obj, destination obj, from obj,
   parentId obj, payload obj, queue obj, sipId obj, params obj).

(** What the lifecycle events [active], [bridge], [hold] and [hangup]
    assign. *)
Definition lifecycle (obj : Call) :=
  (state obj, answeredAt obj, bridgedAt obj, hangupAt obj, bridgedId obj,
   to obj, hangupCause obj, hangupSipCode obj).

(** The messages that deliver a list of call events, one by one. *)
Definition call_messages (es : list CallEventData) : list Action :=
  (fun e => Receive (call_message e)) <$> es.

(** ** A second call and a phone with a session

    An outbound call "c2" from an offline queue, with call parameters, and a
    phone that has a SIP session for it. *)

Definition offline_queue : QueueParameters :=
  {| attempt_id := 1; member_id := 2; queue_id := 3; queue_name := "callbacks";
     queue_type := "offline"; side := "agent"; resource_id := None |}.

Definition ringing_c2 : CallEventData :=
  call_event "c2" "ringing" 2000
    (Some {| d_sip_id := Some ""; d_parent_id := Some "c1";
             d_direction := Some "outbound"; d_destination := Some "200";
             d_queue := Some offline_queue; d_from := None; d_to := None;
             d_payload := None;
             d_params := Some {| cp_audio := Some true; cp_video := Some true;
                                 cp_screen := None; cp_disableStun := None |};
             d_bridged_id := None; d_cause := None; d_sip := None;
             d_application := None; d_digit := None |}).

Definition session_c2 : SipSession :=
  {| session_id := "sip-c2";
     connection := Some {| getLocalStreams := [1%nat]; getRemoteStreams := [] |} |}.

Definition phone_with_c2 : SipPhone :=
  {| sipSessionBySipId := fun _ => None;
     sipSessionByCallId :=
       fun id => if (id =? "c2")%string then Some session_c2 else None |}.

Definition b_phone (sock_id : option string) (debug : option bool) : SipPhone :=
  phone_with_c2.

Definition c2_new : Call :=
  ltac:(let r := eval vm_compute in (new_Call (Some phone_with_c2) ringing_c2) in
        match r with Normal ?obj => exact obj end).

(** A client greeted with the second phone. *)
Definition greeted_b : Client :=
  run false b_phone [Receive hello_message] (new_Client a_config).

(** A configuration that registers the web device, and its greeting. *)
Definition web_config : Config :=
  {| endpoint := "wss://example.test/ws"; token := Some "secret";
     registerWebDevice := Some true; debug := None |}.

Definition dtmf_c1 (digit : string) : CallEventData :=
  call_event "c1" "dtmf" 1006
    (Some {| d_sip_id := None; d_parent_id := None; d_direction := None;
             d_destination := None; d_queue := None; d_from := None;
             d_to := None; d_payload := None; d_params := None;
             d_bridged_id := None; d_cause := None; d_sip := None;
             d_application := None; d_digit := Some digit |}).

(** ** The predicates the properties are stated with *)

(** [Number.MAX_SAFE_INTEGER] and [Number.isSafeInteger]: the integers a
    double holds exactly, with their neighbours. *)
Definition MAX_SAFE_INTEGER : Z := 2 ^ 53 - 1.

Definition safe_integer (n : Z) : Prop := Z.abs n <= MAX_SAFE_INTEGER.

(** Two timestamps whose difference the code computes exactly. *)
Definition exact_subtraction (a b : Z) : Prop :=
  safe_integer a /\ safe_integer b /\ safe_integer (a - b).

(** The timestamp [duration] subtracts [createdAt] from. *)
Definition finish (now : Z) (c : Call) : Z :=
  if hangupAt c =? 0 then now else hangupAt c.

(** Every object of [c] is still in [c'], under the same reference and
    with what the constructor gave it. *)
Definition objects_kept (c c' : Client) : Prop :=
  forall r obj, heap c !! r = Some obj ->
    exists obj', heap c' !! r = Some obj' /\ constructed obj' = constructed obj.

(** An effect that is not the call of a handler, or is one on a channel
    of [published_channels]. *)
Definition on_published_channel (e : Effect) : Prop :=
  match e with
  | Invoke channel _ _ => channel ∈ published_channels
  | _ => True
  end.

(** Several calls to collaborators in a row. *)
Definition effects (es : list Effect) (c : Client) : Client :=
  {| _config := _config c; phone := phone c; connectionInfo := connectionInfo c;
     reqSeq := reqSeq c; queueRequest := queueRequest c;
     eventHandler := eventHandler c; callStore := callStore c;
     heap := heap c; trace := trace c ++ es |}.

(** What one action can do to the correlator: nothing, issue one request
    under the next sequence id, or complete one pending request. *)
Inductive corr_step (c c' : Client) : Prop :=
| corr_same :
    reqSeq c' = reqSeq c ->
    queueRequest c' = queueRequest c ->
    sends (trace c') = sends (trace c) ->
    settlements (trace c') = settlements (trace c) ->
    corr_step c c'
| corr_issue (k : Continuation) (f : Frame) :
    reqSeq c' = reqSeq c + 1 ->
    queueRequest c' =
      <[reqSeq c + 1 := {| promise := length (sends (trace c)); await := k |}]>
        (queueRequest c) ->
    sends (trace c') = sends (trace c) ++ [f] ->
    seq f = reqSeq c + 1 ->
    settlements (trace c') = settlements (trace c) ->
    corr_step c c'
| corr_complete (s : Z) (p : PromiseCallback) (o : Settlement) :
    queueRequest c !! s = Some p ->
    reqSeq c' = reqSeq c ->
    queueRequest c' = delete s (queueRequest c) ->
    sends (trace c') = sends (trace c) ->
    settlements (trace c') = settlements (trace c) ++ [(promise p, o)] ->
    corr_step c c'.

(** The promises settled so far. *)
Definition settled (c : Client) : list nat := (settlements (trace c)).*1.

(** The invariant of the correlator: the frames sent carry the ids 1, 2,
    ... in order; a pending entry under id [s] holds the promise of request
    number [s - 1], which was not settled; no promise was settled twice; and
    every request made is pending or settled. *)
Definition correlator_ok (c : Client) : Prop :=
  reqSeq c = Z.of_nat (length (sends (trace c)))
  /\ seq <$> sends (trace c) = seqZ 1 (reqSeq c)
  /\ (forall s p, queueRequest c !! s = Some p ->
        s = Z.of_nat (promise p) + 1
        /\ (promise p < length (sends (trace c)))%nat
        /\ promise p ∉ settled c)
  /\ NoDup (settled c)
  /\ (forall n, n ∈ settled c -> (n < length (sends (trace c)))%nat)
  /\ (forall n, (n < length (sends (trace c)))%nat ->
        n ∈ settled c
        \/ exists p, queueRequest c !! (Z.of_nat n + 1) = Some p /\ promise p = n).

(** The invariant of the registry: an entry under [k] refers to an object
    of the store whose [id] is [k]. *)
Definition registry_ok (c : Client) : Prop :=
  forall k r, callStore c !! k = Some r ->
    exists obj, heap c !! r = Some obj /\ id obj = k.

(** An object of the store that the registry does not refer to. *)
Definition evicted (r : ref) (c : Client) : Prop :=
  (r < length (heap c))%nat /\ forall k, callStore c !! k <> Some r.

(** What one action can do to the registry and to the objects: nothing;
    set the mute flag of one object; run a method that keeps [id] on the
    object an entry refers to and leave the entry or delete it; or add a new
    object with an entry under its [id]. *)
Inductive calls_step (c c' : Client) : Prop :=
| calls_same :
    heap c' = heap c ->
    callStore c' = callStore c ->
    calls_step c c'
| calls_muted (r : ref) (m : bool) :
    heap c' = alter (set_muted m) r (heap c) ->
    callStore c' = callStore c ->
    calls_step c c'
| calls_update (k : string) (r : ref) (obj obj' : Call) :
    callStore c !! k = Some r ->
    heap c !! r = Some obj ->
    id obj' = id obj ->
    heap c' = <[r := obj']> (heap c) ->
    callStore c' = callStore c \/ callStore c' = delete (id obj') (callStore c) ->
    calls_step c c'
| calls_new (obj : Call) :
    heap c' = heap c ++ [obj] ->
    callStore c' = <[id obj := length (heap c)]> (callStore c) ->
    calls_step c c'.

(** An effect that is neither a frame sent nor a promise settled. *)
Definition quiet (e : Effect) : Prop :=
  match e with
  | Send _ | Settle _ _ => False
  | _ => True
  end.

(** Two states with the same correlator. *)
Definition same_corr (c c' : Client) : Prop :=
  reqSeq c' = reqSeq c
  /\ queueRequest c' = queueRequest c
  /\ sends (trace c') = sends (trace c)
  /\ settlements (trace c') = settlements (trace c).

(** Two states with the same registry and the same objects. *)
Definition same_calls (c c' : Client) : Prop :=
  heap c' = heap c /\ callStore c' = callStore c.

(** A method of [Call] that leaves [id] alone. *)
Definition keeps_id (method : Call -> Call * completion unit) : Prop :=
  forall obj, id (method obj).1 = id obj.

(** * Properties *)

(** ** Strings and rounding *)

Lemma eqb_true (a b : string) : (a =? b)%string = true <-> a = b.
Proof. apply String.eqb_eq. Qed.

Lemma eqb_false (a b : string) : (a =? b)%string = false <-> a <> b.
Proof. apply String.eqb_neq. Qed.

Lemma str_is_true (o : option string) (s : string) :
  str_is o s = true <-> o = Some s.
Proof.
  destruct o as [x|]; simpl.
  - rewrite eqb_true. split; congruence.
  - split; discriminate.
Qed.

Lemma Math_round_div_nearest (n : Z) :
  -500 < 1000 * Math_round_div n 1000 - n <= 500.
Proof.
  unfold Math_round_div.
  pose proof (Z.div_mod (2 * n + 1000) (2 * 1000) ltac:(lia)) as E.
  pose proof (Z.mod_pos_bound (2 * n + 1000) (2 * 1000) ltac:(lia)) as B.
  lia.
Qed.

(** ** The call state machine *)

Lemma setActive_answered (e : CallEventData) (c : Call) :
  answeredAt c <> 0 ->
  setActive e c = setState e c.
Proof.
  intros H. unfold setActive.
  destruct (Z.eqb_spec (answeredAt c) 0); [contradiction | reflexivity].
Qed.

Lemma setState_timestamps (e : CallEventData) (c : Call) :
  answeredAt (setState e c) = answeredAt c
  /\ bridgedAt (setState e c) = bridgedAt c
  /\ bridgedId (setState e c) = bridgedId c.
Proof. repeat split. Qed.

Lemma actives_answered (es : list CallEventData) (c : Call) :
  answeredAt c <> 0 ->
  answeredAt (actives es c) = answeredAt c
  /\ bridgedAt (actives es c) = bridgedAt c
  /\ bridgedId (actives es c) = bridgedId c.
Proof.
  revert c. induction es as [|e es IH]; intros c H; [done|].
  change (actives (e :: es) c) with (actives es (setActive e c)).
  rewrite (setActive_answered e c H).
  destruct (IH (setState e c) H) as (-> & -> & ->). done.
Qed.

Lemma setActive_first (e : CallEventData) (c : Call) :
  answeredAt c = 0 ->
  answeredAt (setActive e c) = e_timestamp e
  /\ (direction c = Some CallDirection.Inbound ->
      bridgedAt (setActive e c) = e_timestamp e
      /\ (truthy (parentId c) = true -> bridgedId (setActive e c) = parentId c)
      /\ (truthy (parentId c) = false -> bridgedId (setActive e c) = bridgedId c))
  /\ (direction c <> Some CallDirection.Inbound ->
      bridgedAt (setActive e c) = bridgedAt c
      /\ bridgedId (setActive e c) = bridgedId c).
Proof.
  intros H. unfold setActive. rewrite H. simpl.
  destruct (str_is (direction c) CallDirection.Inbound) eqn:D.
  - apply str_is_true in D.
    destruct (truthy (parentId c)) eqn:P; simpl; rewrite ?P; simpl;
      repeat split; try done; try congruence.
  - split; [done|]. split.
    + intros D'. apply str_is_true in D'. congruence.
    + intros _. split; reflexivity.
Qed.

Lemma setBridged_state (e : CallEventData) (c : Call) :
  state (setBridged e c).1 = state c.
Proof.
  unfold setBridged.
  destruct (bridgedAt c =? 0), (e_data e) as [d|]; simpl; try done;
    destruct (d_to d); done.
Qed.

Lemma setHangup_fields (e : CallEventData) (d : EventPayload) (c : Call) :
  e_data e = Some d ->
  let c' := (setHangup e c).1 in
  (setHangup e c).2 = Normal tt
  /\ hangupAt c' = e_timestamp e
  /\ hangupCause c' = d_cause d
  /\ hangupSipCode c' = d_sip d
  /\ voice c' = false
  /\ peerStreams c' = None
  /\ state c' = e_event e
  /\ id c' = id c.
Proof. intros H. unfold setHangup. rewrite H. simpl. repeat split. Qed.

(** C4, as stated, fails: an [active] event with timestamp 0 leaves
    [answeredAt] at 0, the value that means not answered, and the next
    [active] event assigns it again. *)
Lemma answeredAt_assigned_twice :
  answeredAt c1_new = 0
  /\ answeredAt (actives [active_at_0] c1_new) = e_timestamp active_at_0
  /\ answeredAt (actives [active_at_0; active_c1] c1_new) = 1005
  /\ answeredAt (actives [active_at_0; active_c1] c1_new)
     <> answeredAt (actives [active_at_0] c1_new).
Proof. vm_compute. repeat split; discriminate. Qed.

(** C4, amended: on a call not yet answered, a first [active] event whose
    timestamp is not 0 assigns [answeredAt], and no later [active] event
    changes it; if the call is inbound the same event sets [bridgedAt] to its
    timestamp and copies a non-empty [parentId] into [bridgedId], and later
    [active] events change neither. *)
Theorem answeredAt_set_by_first_active
    (c : Call) (e : CallEventData) (es : list CallEventData) :
  answeredAt c = 0 ->
  e_timestamp e <> 0 ->
  answeredAt (setActive e c) = e_timestamp e
  /\ answeredAt (actives (e :: es) c) = e_timestamp e
  /\ (direction c = Some CallDirection.Inbound ->
      bridgedAt (setActive e c) = e_timestamp e
      /\ bridgedAt (actives (e :: es) c) = e_timestamp e
      /\ (truthy (parentId c) = true ->
          bridgedId (setActive e c) = parentId c
          /\ bridgedId (actives (e :: es) c) = parentId c)).
Proof.
  intros H0 Hts.
  destruct (setActive_first e c H0) as (A & I & _).
  assert (Hne : answeredAt (setActive e c) <> 0) by congruence.
  change (actives (e :: es) c) with (actives es (setActive e c)).
  destruct (actives_answered es _ Hne) as (-> & -> & ->).
  split; [done|]. split; [done|].
  intros D. destruct (I D) as (B & P & _).
  split; [done|]. split; [done|].
  intros T. split; auto.
Qed.

Lemma answeredAt_set_by_first_active_witness :
  answeredAt (actives [active_c1; call_event "c1" "active" 2000 None] c1_new) = 1005
  /\ bridgedAt (actives [active_c1; call_event "c1" "active" 2000 None] c1_new) = 1005.
Proof.
  destruct (answeredAt_set_by_first_active c1_new active_c1
              [call_event "c1" "active" 2000 None]) as (_ & A & B).
  - reflexivity.
  - vm_compute. discriminate.
  - split; [exact A|]. apply B. reflexivity.
Defined.

(** C6: a [bridge] event on the active call "c1" records the counterpart,
    the destination endpoint and (here already set by [active], the call
    being inbound) the bridge time, but [setBridged] never calls [setState]:
    the call stays in state "active" and no call ever reaches "bridge". *)
Theorem bridge_event_keeps_state_active :
  let c := run false a_phone [Receive (call_message bridge_c1)] answered in
  callStore c !! "c1" = Some 0%nat
  /\ (state <$> heap answered !! 0%nat) = Some "active"
  /\ (bridgedId <$> heap c !! 0%nat) = Some (Some "c2")
  /\ (to <$> heap c !! 0%nat) = Some (e_data bridge_c1 ≫= d_to)
  /\ (bridgedAt <$> heap c !! 0%nat) = Some 1005
  /\ (state <$> heap c !! 0%nat) = Some "active"
  /\ (state <$> heap c !! 0%nat) <> Some "bridge".
Proof. vm_compute. repeat split; discriminate. Qed.

(** C9, as stated, fails on its example: the call created at 1000 and hung
    up at 1010 has duration [Math.round(10 / 1000)], which is 0 and not 5. *)
Lemma duration_of_example_is_not_5 :
  (createdAt <$> heap hung_up !! 0%nat) = Some 1000
  /\ (hangupAt <$> heap hung_up !! 0%nat) = Some 1010
  /\ (duration 999999 <$> heap hung_up !! 0%nat) = Some 0
  /\ (duration 999999 <$> heap hung_up !! 0%nat) <> Some 5.
Proof. vm_compute. repeat split; discriminate. Qed.

(** C9, amended: [duration] does not depend on [answeredAt].  For
    timestamps that are safe integers with a safe difference, where the
    subtraction of the code is exact: while [hangupAt] is 0 it is
    [now - createdAt], and afterwards [hangupAt - createdAt], both divided by
    1000 and rounded to the nearest integer, so it is within half a second
    of the difference; for the call created at 1000 and hung up at 1010 it
    is 0. *)
Theorem duration_ignores_answer_time (now : Z) (c : Call) :
  (forall a, duration now (set_answeredAt a c) = duration now c)
  /\ (exact_subtraction (finish now c) (createdAt c) ->
      (hangupAt c = 0 -> duration now c = Math_round_div (now - createdAt c) 1000)
      /\ (hangupAt c <> 0 ->
          duration now c = Math_round_div (hangupAt c - createdAt c) 1000)
      /\ -500 < 1000 * duration now c - (finish now c - createdAt c) <= 500)
  /\ (duration now <$> heap hung_up !! 0%nat) = Some 0.
Proof.
  split; [reflexivity|]. split; [|vm_compute; reflexivity].
  intros _. unfold duration, finish.
  destruct (Z.eqb_spec (hangupAt c) 0) as [H|H].
  - split; [reflexivity|]. split; [contradiction|]. apply Math_round_div_nearest.
  - split; [contradiction|]. split; [reflexivity|]. apply Math_round_div_nearest.
Qed.

Lemma duration_ignores_answer_time_witness :
  exact_subtraction (finish 61499 c1_active) (createdAt c1_active)
  /\ duration 61499 c1_active = 60
  /\ duration 61499 (set_hangupAt 3600 c1_active) = 3.
Proof.
  assert (S1 : exact_subtraction (finish 61499 c1_active) (createdAt c1_active)).
  { repeat split; vm_compute; discriminate. }
  assert (S2 : exact_subtraction (finish 61499 (set_hangupAt 3600 c1_active))
                 (createdAt (set_hangupAt 3600 c1_active))).
  { repeat split; vm_compute; discriminate. }
  destruct (duration_ignores_answer_time 61499 c1_active) as (_ & A & _).
  destruct (duration_ignores_answer_time 61499 (set_hangupAt 3600 c1_active))
    as (_ & B & _).
  destruct (A S1) as (A1 & _). destruct (B S2) as (_ & B2 & _).
  split; [exact S1|]. split.
  - rewrite A1; reflexivity.
  - rewrite B2; [reflexivity | vm_compute; discriminate].
Defined.

(** ** Traces *)

Lemma effects_nil (c : Client) : effects [] c = c.
Proof. destruct c. unfold effects. simpl. by rewrite app_nil_r. Qed.

Lemma effects_effect (e : Effect) (es : list Effect) (c : Client) :
  effects es (effect e c) = effects (e :: es) c.
Proof. unfold effects, effect. simpl. by rewrite <- app_assoc. Qed.

Lemma effect_effects (e : Effect) (c : Client) : effect e c = effects [e] c.
Proof. reflexivity. Qed.

Lemma effects_effects (es es' : list Effect) (c : Client) :
  effects es' (effects es c) = effects (es ++ es') c.
Proof. unfold effects. simpl. by rewrite <- app_assoc. Qed.

Lemma foldl_effect (f : Handler -> Effect) (l : list Handler) (c : Client) :
  foldl (fun c h => effect (f h) c) c l = effects (f <$> l) c.
Proof.
  revert c. induction l as [|h l IH]; intros c; simpl.
  - by rewrite effects_nil.
  - by rewrite IH, effects_effect.
Qed.

Lemma emit_effects (channel : string) (args : EmitArgs) (c : Client) :
  emit channel args c
  = effects ((fun h => Invoke channel h args) <$> listeners channel c) c.
Proof. unfold emit. apply foldl_effect. Qed.

Lemma sends_quiet (es : list Effect) : Forall quiet es -> sends es = [].
Proof.
  induction 1 as [|e es He _ IH]; [done|].
  destruct e; try done; exact IH.
Qed.

Lemma settlements_quiet (es : list Effect) : Forall quiet es -> settlements es = [].
Proof.
  induction 1 as [|e es He _ IH]; [done|].
  destruct e; try done; exact IH.
Qed.

Lemma sends_app (t es : list Effect) : sends (t ++ es) = sends t ++ sends es.
Proof. apply omap_app. Qed.

Lemma settlements_app (t es : list Effect) :
  settlements (t ++ es) = settlements t ++ settlements es.
Proof. apply omap_app. Qed.

Lemma quiet_invokes (channel : string) (args : EmitArgs) (l : list Handler) :
  Forall quiet ((fun h => Invoke channel h args) <$> l).
Proof. induction l; constructor; done. Qed.

Lemma sends_invokes (channel : string) (args : EmitArgs) (l : list Handler) :
  sends ((fun h => Invoke channel h args) <$> l) = [].
Proof. apply sends_quiet, quiet_invokes. Qed.

Lemma settlements_invokes (channel : string) (args : EmitArgs) (l : list Handler) :
  settlements ((fun h => Invoke channel h args) <$> l) = [].
Proof. apply settlements_quiet, quiet_invokes. Qed.

(** ** The correlator is only touched by [request] and by replies *)

Ltac traces :=
  simpl;
  rewrite ?sends_app, ?settlements_app, ?sends_invokes, ?settlements_invokes;
  simpl; rewrite ?app_nil_r; try reflexivity.

Ltac same := repeat split; traces.

Lemma same_corr_step (c c' : Client) : same_corr c c' -> corr_step c c'.
Proof. intros (? & ? & ? & ?). by apply corr_same. Qed.

Lemma request_issue (action : string) (data : option JObject) (k : Continuation)
    (c : Client) :
  let c' := request action data k c in
  reqSeq c' = reqSeq c + 1
  /\ queueRequest c' =
       <[reqSeq c + 1 := {| promise := length (sends (trace c)); await := k |}]>
         (queueRequest c)
  /\ sends (trace c') =
       sends (trace c) ++ [{| seq := reqSeq c + 1; action := action; f_data := data |}]
  /\ settlements (trace c') = settlements (trace c)
  /\ heap c' = heap c /\ callStore c' = callStore c
  /\ eventHandler c' = eventHandler c.
Proof. same. Qed.

Lemma request_corr (action : string) (data : option JObject) (k : Continuation)
    (c : Client) : corr_step c (request action data k c).
Proof.
  destruct (request_issue action data k c) as (? & ? & ? & ? & _).
  by eapply corr_issue.
Qed.

Lemma log_opened_same (c : Client) : same_corr c (log_opened c).1.
Proof. unfold log_opened. repeat case_match; same. Qed.

Lemma same_corr_trans (c1 c2 c3 : Client) :
  same_corr c1 c2 -> same_corr c2 c3 -> same_corr c1 c3.
Proof.
  intros (A1 & A2 & A3 & A4) (B1 & B2 & B3 & B4).
  repeat split; congruence.
Qed.

Lemma resume_same (k : Continuation) (s : Settlement) (c : Client) :
  same_corr c (resume k s c).
Proof.
  destruct k, s; try (same; fail);
    (eapply same_corr_trans; [|apply log_opened_same]); same.
Qed.

(** ** The registry and the objects *)

Lemma same_calls_step (c c' : Client) : same_calls c c' -> calls_step c c'.
Proof. intros (? & ?). by apply calls_same. Qed.

Lemma same_calls_trans (c1 c2 c3 : Client) :
  same_calls c1 c2 -> same_calls c2 c3 -> same_calls c1 c3.
Proof. intros (? & ?) (? & ?). split; congruence. Qed.

Lemma calls_step_same_l (c1 c2 c3 : Client) :
  same_calls c1 c2 -> calls_step c2 c3 -> calls_step c1 c3.
Proof.
  intros (A & B) [| r m | k r obj obj' K1 K2 K3 K4 K5 | obj].
  - apply calls_same; congruence.
  - apply (calls_muted _ _ r m); congruence.
  - apply (calls_update _ _ k r obj obj'); [congruence..|].
    destruct K5; [left|right]; congruence.
  - apply (calls_new _ _ obj); congruence.
Qed.

Lemma calls_step_same_r (c1 c2 c3 : Client) :
  calls_step c1 c2 -> same_calls c2 c3 -> calls_step c1 c3.
Proof.
  intros [| r m | k r obj obj' K1 K2 K3 K4 K5 | obj] (A & B).
  - apply calls_same; congruence.
  - apply (calls_muted _ _ r m); congruence.
  - apply (calls_update _ _ k r obj obj'); [congruence..|].
    destruct K5; [left|right]; congruence.
  - apply (calls_new _ _ obj); congruence.
Qed.

Ltac calm := split; simpl; reflexivity.

Lemma request_calls (action : string) (data : option JObject) (k : Continuation)
    (c : Client) : same_calls c (request action data k c).
Proof. calm. Qed.

Lemma log_opened_calls (c : Client) : same_calls c (log_opened c).1.
Proof. unfold log_opened. repeat case_match; calm. Qed.

Lemma emit_calls (channel : string) (args : EmitArgs) (c : Client) :
  same_calls c (emit channel args c).
Proof. rewrite emit_effects. calm. Qed.

Lemma resume_calls (k : Continuation) (s : Settlement) (c : Client) :
  calls_step c (resume k s c).
Proof.
  destruct k as [| channel handler | r m |], s;
    try (apply same_calls_step; calm).
  - apply (calls_muted _ _ r m); reflexivity.
  - apply same_calls_step.
    eapply same_calls_trans; [|apply log_opened_calls]. calm.
  - apply same_calls_step.
    eapply same_calls_trans; [|apply log_opened_calls]. calm.
Qed.

Lemma new_Call_id (ph : option SipPhone) (e : CallEventData) (obj : Call) :
  new_Call ph e = Normal obj ->
  id obj = e_id e /\ state obj = e_event e /\ hangupAt obj = 0 /\ answeredAt obj = 0.
Proof.
  unfold new_Call, setSip.
  repeat case_match; try done; intros [= <-]; repeat split.
Qed.

Lemma setActive_id (e : CallEventData) : keeps_id (total (setActive e)).
Proof. intros obj. unfold total, setActive. simpl. repeat case_match; done. Qed.

Lemma setBridged_id (e : CallEventData) : keeps_id (setBridged e).
Proof. intros obj. unfold setBridged. repeat case_match; done. Qed.

Lemma setExecute_id (s : option EventPayload) : keeps_id (setExecute s).
Proof. intros obj. unfold setExecute. repeat case_match; done. Qed.

Lemma addDigit_id (s : option EventPayload) : keeps_id (addDigit s).
Proof. intros obj. unfold addDigit. repeat case_match; done. Qed.

Lemma setHangup_id (e : CallEventData) : keeps_id (setHangup e).
Proof. intros obj. unfold setHangup. repeat case_match; done. Qed.

Lemma setHold_id (e : CallEventData) : keeps_id (total (setHold e)).
Proof. intros obj. done. Qed.

Lemma setVoice_id : keeps_id (total setVoice).
Proof. intros obj. done. Qed.

Lemma setSilence_id : keeps_id (total setSilence).
Proof. intros obj. done. Qed.

Lemma on_call_calls (event : CallEventData) method rest (c : Client) :
  keeps_id method ->
  rest = nothing \/ rest = evict ->
  calls_step c (on_call event method rest c).1.
Proof.
  intros Hid Hrest. unfold on_call, callById.
  destruct (callStore c !! e_id event) as [call|] eqn:Hc; [|apply same_calls_step; calm].
  destruct (heap c !! call) as [obj|] eqn:Ho; [|apply same_calls_step; calm].
  pose proof (Hid obj) as Hid'.
  destruct (method obj) as [obj' r] eqn:Hm. simpl in Hid'.
  destruct r as [[]|e].
  - eapply calls_step_same_r; [|apply emit_calls].
    apply (calls_update _ _ (e_id event) call obj obj'); try done.
    + destruct Hrest as [-> | ->]; reflexivity.
    + destruct Hrest as [-> | ->]; [by left|by right].
  - apply (calls_update _ _ (e_id event) call obj obj'); try done. by left.
Qed.

Lemma registry_ok_new (config : Config) : registry_ok (new_Client config).
Proof. intros k r H. simpl in H. by rewrite lookup_empty in H. Qed.

Lemma registry_ok_step (c c' : Client) :
  registry_ok c -> calls_step c c' -> registry_ok c'.
Proof.
  intros R [Eh Es | r m Eh Es | k r obj obj' K1 K2 K3 Eh Es | obj Eh Es] k' r' H.
  - rewrite Eh. rewrite Es in H. by apply R.
  - rewrite Es in H. destruct (R _ _ H) as (o & Ho & Hid).
    rewrite Eh. destruct (decide (r = r')) as [E|Hne]; [subst r'|].
    + rewrite list_lookup_alter_eq. rewrite Ho. simpl. eauto.
    + rewrite list_lookup_alter_ne by done. eauto.
  - assert (H' : callStore c !! k' = Some r').
    { destruct Es as [Es|Es]; rewrite Es in H; [done|].
      rewrite lookup_delete in H. by case_decide. }
    destruct (R _ _ H') as (o & Ho & Hid). rewrite Eh.
    destruct (decide (r = r')) as [E|Hne]; [subst r'|].
    + exists obj'. rewrite list_lookup_insert_eq by (by eapply lookup_lt_Some).
      split; [done|]. congruence.
    + exists o. by rewrite list_lookup_insert_ne.
  - rewrite Es in H. rewrite lookup_insert in H. rewrite Eh. case_decide.
    + simplify_eq. exists obj. split; [|done].
      by rewrite lookup_app_r, Nat.sub_diag.
    + destruct (R _ _ H) as (o & Ho & Hid). exists o.
      split; [|done]. by apply lookup_app_l_Some.
Qed.

(** An object the registry does not refer to is out of reach of every
    action but the continuation of [mute]: all its fields but [_muted] stay
    as they are. *)
Lemma evicted_step (r : ref) (c c' : Client) :
  evicted r c -> calls_step c c' ->
  evicted r c'
  /\ forall {A} (f : Call -> A), (forall m o, f (set_muted m o) = f o) ->
       f <$> heap c' !! r = f <$> heap c !! r.
Proof.
  intros (L & N) [Eh Es | r0 m Eh Es | k r0 obj obj' K1 K2 K3 Eh Es | obj Eh Es].
  - split; [split|]; rewrite ?Eh, ?Es; done.
  - split; [split|]; rewrite ?Eh, ?Es, ?length_alter; try done.
    intros A f Hf. destruct (decide (r0 = r)) as [E|Hne]; [subst r0|].
    + rewrite list_lookup_alter_eq.
      destruct (heap c !! r); simpl; [|done]. by rewrite Hf.
    + by rewrite list_lookup_alter_ne.
  - assert (r0 <> r) by (intros ->; by apply (N k)).
    split; [split|]; rewrite ?Eh, ?length_insert; try done.
    + intros k' H'. destruct Es as [Es|Es]; rewrite Es in H'; [by apply (N k')|].
      rewrite lookup_delete in H'. case_decide; [done|]. by apply (N k').
    + intros A f Hf. by rewrite list_lookup_insert_ne.
  - split; [split|]; rewrite ?Eh, ?Es, ?length_app; simpl; try lia.
    + intros k'. rewrite lookup_insert. case_decide; [|apply N].
      intros [= ?]. lia.
    + intros A f Hf. by rewrite lookup_app_l.
Qed.

Lemma invocations_app (t es : list Effect) :
  invocations (t ++ es) = invocations t ++ invocations es.
Proof. apply omap_app. Qed.

Lemma invocations_invokes (channel : string) (args : EmitArgs) (l : list Handler) :
  invocations ((fun h => Invoke channel h args) <$> l)
  = (fun h => (channel, h, args)) <$> l.
Proof. induction l as [|h l IH]; [done|]. rewrite !fmap_cons, <- IH. done. Qed.

Lemma str_is_false (o : option string) (s : string) :
  str_is o s = false <-> o <> Some s.
Proof.
  destruct (str_is o s) eqn:E.
  - apply str_is_true in E. split; [discriminate|congruence].
  - split; [|done]. intros _ H. apply str_is_true in H. congruence.
Qed.

Lemma log_opened_invocations (c : Client) :
  invocations (trace (log_opened c).1) = invocations (trace c)
  /\ callStore (log_opened c).1 = callStore c.
Proof.
  unfold log_opened. repeat case_match; simpl; rewrite ?invocations_app; simpl;
    rewrite ?app_nil_r; done.
Qed.

Lemma resume_invocations (k : Continuation) (s : Settlement) (c : Client) :
  invocations (trace (resume k s c)) = invocations (trace c)
  /\ callStore (resume k s c) = callStore c.
Proof.
  destruct k, s; simpl; try done.
  - destruct (log_opened_invocations (effect (PhoneRegister res) c)) as (-> & ->).
    simpl. rewrite invocations_app. simpl. by rewrite app_nil_r.
  - destruct (log_opened_invocations (effect (Log Err [LObject err]) c)) as (-> & ->).
    simpl. rewrite invocations_app. simpl. by rewrite app_nil_r.
Qed.

(** ** Hold and unhold *)

Lemma allowHold_state (obj : Call) :
  allowHold obj = true ->
  hangupAt obj = 0 /\ (state obj = "active" \/ state obj = "bridge").
Proof.
  unfold allowHold. rewrite andb_true_iff, orb_true_iff, Z.eqb_eq, !eqb_true. done.
Qed.

Lemma allowUnHold_state (obj : Call) :
  allowUnHold obj = true <-> hangupAt obj = 0 /\ state obj = "hold".
Proof. unfold allowUnHold. by rewrite andb_true_iff, Z.eqb_eq, eqb_true. Qed.

(** C5, as stated, fails: while the call is ringing it may not be held, and
    yet [hold()] sends a [call_hold] request. *)
Lemma hold_sends_while_ringing :
  state c1_new = "ringing"
  /\ allowHold c1_new = false
  /\ (hold c1_new ringing).2 = Pending
  /\ sends (trace (hold c1_new ringing).1)
     = sends (trace ringing)
       ++ [{| seq := 1; action := "call_hold";
              f_data := Some [("id", JStr "c1"); ("app_id", JStr "app-1")] |}].
Proof. vm_compute. repeat split. Qed.

(** C5, amended: [hold()] rejects without sending exactly when the state
    is "hold", and in every other state sends one [call_hold] request;
    [unHold()] rejects without sending exactly when the state is not "hold",
    and otherwise sends one [call_unhold] request.  So a call that may be
    held (resp. unheld) gets its one request, and a call that may not be
    unheld is rejected as long as its hangup time is only set together with
    the state "hangup", as [setHangup] does. *)
Theorem hold_and_unhold_gate_on_state (obj : Call) (c : Client) :
  let sent action :=
    [{| seq := reqSeq c + 1; action := action; f_data := Some (call_key obj) |}] in
  (state obj = CallActions.Hold ->
     hold obj c = (c, Rejected (Error "Call is hold")))
  /\ (state obj <> CallActions.Hold ->
     (hold obj c).2 = Pending
     /\ sends (trace (hold obj c).1) = sends (trace c) ++ sent "call_hold")
  /\ (state obj <> CallActions.Hold ->
     unHold obj c = (c, Rejected (Error "Call is active")))
  /\ (state obj = CallActions.Hold ->
     (unHold obj c).2 = Pending
     /\ sends (trace (unHold obj c).1) = sends (trace c) ++ sent "call_unhold")
  /\ (allowHold obj = true -> state obj <> CallActions.Hold)
  /\ (allowUnHold obj = true -> state obj = CallActions.Hold)
  /\ ((hangupAt obj <> 0 -> state obj = CallActions.Hangup) ->
      allowUnHold obj = false ->
      unHold obj c = (c, Rejected (Error "Call is active"))).
Proof.
  intros sent. unfold hold, unHold.
  split. { intros ->. reflexivity. }
  split. { intros H. apply eqb_false in H. rewrite H. split; [done|]. traces. }
  split. { intros H. apply eqb_false in H. rewrite H. reflexivity. }
  split. { intros ->. simpl. split; [done|]. traces. }
  split. { intros H. apply allowHold_state in H as (_ & [-> | ->]); discriminate. }
  split. { intros H. by apply allowUnHold_state in H as (_ & ->). }
  intros Inv H.
  assert (Hs : (state obj =? CallActions.Hold)%string = false).
  { apply eqb_false. intros Hs.
    destruct (Z.eq_dec (hangupAt obj) 0) as [E|E].
    - assert (allowUnHold obj = true) by (by apply allowUnHold_state). congruence.
    - rewrite (Inv E) in Hs. discriminate. }
  by rewrite Hs.
Qed.

Lemma hold_and_unhold_gate_on_state_witness :
  hold c1_held answered = (answered, Rejected (Error "Call is hold"))
  /\ unHold c1_active answered = (answered, Rejected (Error "Call is active"))
  /\ sends (trace (hold c1_active answered).1)
     = sends (trace answered)
       ++ [{| seq := 1; action := "call_hold"; f_data := Some (call_key c1_active) |}]
  /\ sends (trace (unHold c1_held answered).1)
     = sends (trace answered)
       ++ [{| seq := 1; action := "call_unhold"; f_data := Some (call_key c1_held) |}].
Proof.
  destruct (hold_and_unhold_gate_on_state c1_held answered) as (A & _ & _ & B & _).
  destruct (hold_and_unhold_gate_on_state c1_active answered) as (_ & C & D & _).
  split; [apply A; reflexivity|].
  split; [apply D; vm_compute; discriminate|].
  split; [apply C; vm_compute; discriminate|].
  apply B; reflexivity.
Defined.

Lemma on_call_in_place (event : CallEventData) method rest (c : Client) :
  rest = nothing \/ rest = evict ->
  let c' := (on_call event method rest c).1 in
  length (heap c') = length (heap c)
  /\ forall k r, callStore c' !! k = Some r -> callStore c !! k = Some r.
Proof.
  intros Hrest. unfold on_call.
  repeat case_match; simpl; try done; rewrite ?emit_effects; simpl;
    rewrite ?length_insert; try done.
  split; [by destruct Hrest as [-> | ->]; simpl; rewrite length_insert|].
  intros k r. destruct Hrest as [-> | ->]; simpl; [done|].
  rewrite lookup_delete. by case_decide.
Qed.

(** ** The client: correlator, registry, dispatcher and router

    The properties below hold whatever the document visibility and the
    phone constructor are. *)

Section properties.

Variable document_hidden : bool.
Variable new_SipPhone : option string -> option bool -> SipPhone.

Local Abbreviation handleCallEvents := (handleCallEvents document_hidden).
Local Abbreviation checkAutoAnswer := (checkAutoAnswer document_hidden).
Local Abbreviation connected := (connected new_SipPhone).
Local Abbreviation onMessage := (onMessage document_hidden new_SipPhone).
Local Abbreviation step := (step document_hidden new_SipPhone).
Local Abbreviation run := (run document_hidden new_SipPhone).

Lemma on_call_same (event : CallEventData) method rest (c : Client) :
  (forall obj c, same_corr c (rest obj c)) ->
  same_corr c (on_call event method rest c).1.
Proof.
  intros Hrest. unfold on_call. repeat case_match; try (same; fail).
  rewrite emit_effects. simpl.
  match goal with |- same_corr _ (effects _ (rest ?o ?c')) =>
    destruct (Hrest o c') as (R1 & R2 & R3 & R4) end.
  unfold same_corr. simpl. rewrite R1, R2, sends_app, settlements_app, R3, R4.
  same.
Qed.

Lemma handleCallEvents_same (event : option CallEventData) (c : Client) :
  same_corr c (handleCallEvents event c).1.
Proof.
  unfold handleCallEvents.
  destruct event as [event|]; [|same].
  repeat case_match; try (apply on_call_same; intros; same); try (same; fail).
  all: unfold checkAutoAnswer, answer in *; rewrite ?emit_effects;
    repeat case_match; simplify_eq; same.
Qed.

Lemma connected_corr (info : option MessageData) (c : Client) :
  corr_step c (connected info c).1.
Proof.
  unfold connected. repeat case_match; simpl.
  - match goal with |- corr_step _ (request ?a ?d ?k ?c') =>
      destruct (request_issue a d k c') as (? & ? & ? & ? & _) end.
    by eapply corr_issue.
  - apply same_corr_step. same.
  - apply same_corr_step. same.
Qed.

Lemma corr_step_same_r (c1 c2 c3 : Client) :
  corr_step c1 c2 -> same_corr c2 c3 -> corr_step c1 c3.
Proof.
  intros H (B1 & B2 & B3 & B4). destruct H.
  - apply corr_same; congruence.
  - apply (corr_issue _ _ k f); congruence.
  - apply (corr_complete _ _ s p o); congruence.
Qed.

Lemma corr_step_same_l (c1 c2 c3 : Client) :
  same_corr c1 c2 -> corr_step c2 c3 -> corr_step c1 c3.
Proof.
  intros (B1 & B2 & B3 & B4) H. destruct H.
  - apply corr_same; congruence.
  - apply (corr_issue _ _ k f); congruence.
  - apply (corr_complete _ _ s p o); congruence.
Qed.

(** What a reply does: [complete] of the correlator. *)
Lemma onMessage_reply (message : Message) (c : Client) (s : Z) (p : PromiseCallback) :
  seq_reply message = Some s ->
  0 < s ->
  queueRequest c !! s = Some p ->
  let o := if str_is (status message) Response.STATUS_OK
           then Resolved (data message) else Refused (error message) in
  let c' := (onMessage message c).1 in
  (onMessage message c).2 = Fulfilled tt
  /\ reqSeq c' = reqSeq c
  /\ queueRequest c' = delete s (queueRequest c)
  /\ sends (trace c') = sends (trace c)
  /\ settlements (trace c') = settlements (trace c) ++ [(promise p, o)]
  /\ c' = resume (await p) o
            (effect (Settle (promise p) o)
               (set_queueRequest (delete s (queueRequest c))
                  (effect (Log Debug [LStr "receive message: "; LMessage message]) c))).
Proof.
  intros Hs Hpos Hp. unfold onMessage, is_reply. rewrite Hs. simpl.
  destruct (Z.gtb_spec s 0) as [_|]; [|lia].
  rewrite Hp. unfold settle.
  destruct (str_is (status message) Response.STATUS_OK); simpl;
    (split; [done|]);
    match goal with |- context [resume ?k ?o ?c0] =>
      destruct (resume_same k o c0) as (-> & -> & -> & ->) end;
    same.
Qed.

(** A reply nobody waits for is dropped: only the debug line is logged. *)
Lemma onMessage_stale (message : Message) (c : Client) (s : Z) :
  seq_reply message = Some s ->
  0 < s ->
  queueRequest c !! s = None ->
  onMessage message c
  = (effect (Log Debug [LStr "receive message: "; LMessage message]) c,
     Fulfilled tt).
Proof.
  intros Hs Hpos Hp. unfold onMessage, is_reply. rewrite Hs. simpl.
  destruct (Z.gtb_spec s 0) as [_|]; [|lia].
  by rewrite Hp.
Qed.

Lemma onMessage_corr (message : Message) (c : Client) :
  corr_step c (onMessage message c).1.
Proof.
  destruct (is_reply message) eqn:R.
  - unfold is_reply in R. destruct (seq_reply message) as [s|] eqn:Hs; [|done].
    apply Z.gtb_lt in R.
    destruct (queueRequest c !! s) as [p|] eqn:Hp.
    + destruct (onMessage_reply message c s p Hs R Hp) as (_ & ? & ? & ? & ? & _).
      by eapply corr_complete.
    + rewrite (onMessage_stale message c s Hs R Hp). apply same_corr_step. same.
  - unfold onMessage. rewrite R.
    set (c0 := effect _ c).
    assert (S0 : same_corr c c0) by same.
    eapply corr_step_same_l; [exact S0|].
    repeat case_match; simplify_eq; simpl;
      try (apply same_corr_step; unfold handleUserStateEvent;
           rewrite ?emit_effects; same; fail).
    + eapply corr_step_same_r; [|apply log_opened_same].
      match goal with H : connected ?i ?c = _ |- _ =>
        pose proof (connected_corr i c) as K; rewrite H in K; exact K end.
    + match goal with H : connected ?i ?c = _ |- _ =>
        pose proof (connected_corr i c) as K; rewrite H in K; exact K end.
    + match goal with H : connected ?i ?c = _ |- _ =>
        pose proof (connected_corr i c) as K; rewrite H in K; exact K end.
    + apply same_corr_step, handleCallEvents_same.
Qed.

Lemma with_obj_corr {A} (call : ref) (method : Call -> Client -> Client * A)
    (c : Client) :
  (forall obj c, corr_step c (method obj c).1) ->
  corr_step c (with_obj call method c).
Proof.
  intros H. unfold with_obj. destruct (heap c !! call); [apply H|].
  apply same_corr_step. same.
Qed.

Lemma step_corr (c : Client) (a : Action) : corr_step c (step c a).
Proof.
  destruct a; simpl; try apply request_corr.
  all: try solve [apply with_obj_corr; intros obj c';
            unfold hold, unHold, toggleHold, mute, hangup, sendDTMF, blindTransfer,
              hold, unHold;
            repeat case_match; simpl;
            try apply request_corr; apply same_corr_step; same].
  - apply with_obj_corr. intros obj c'. simpl.
    apply with_obj_corr. intros obj' c''. apply request_corr.
  - apply onMessage_corr.
Qed.

Lemma correlator_ok_new (config : Config) : correlator_ok (new_Client config).
Proof.
  unfold correlator_ok, settled. simpl. repeat split; try done.
  - constructor.
  - intros n H. by apply elem_of_nil in H.
  - intros n H. simpl in H. lia.
Qed.

Lemma correlator_ok_step (c c' : Client) :
  correlator_ok c -> corr_step c c' -> correlator_ok c'.
Proof.
  unfold correlator_ok, settled.
  intros (L & I & P & N & B & T) [E1 E2 E3 E4|k f E1 E2 E3 F E4|s p o Hp E1 E2 E3 E4];
    rewrite ?E1, ?E2, ?E3, ?E4.
  - done.
  - rewrite length_app, fmap_app. simpl.
    split; [lia|]. split.
    { rewrite I, F, L.
      replace (Z.of_nat (length (sends (trace c))) + 1)
        with (Z.of_nat (S (length (sends (trace c))))) by lia.
      rewrite seqZ_S. f_equal. f_equal. lia. }
    split.
    { intros s p. rewrite lookup_insert. case_decide.
      - intros [= <-]. simpl. split; [lia|]. split; [lia|].
        intros Hin. apply B in Hin. lia.
      - intros H'. destruct (P _ _ H') as (? & ? & ?). split; [done|]. split; [lia|done]. }
    split; [done|]. split.
    { intros n Hn. apply B in Hn. lia. }
    intros n Hn.
    destruct (decide (n = length (sends (trace c)))) as [->|Hne].
    + right. eexists. rewrite L. rewrite lookup_insert_eq. done.
    + destruct (T n ltac:(lia)) as [?|(p & Hq & Hpn)]; [by left|].
      right. exists p. rewrite lookup_insert_ne; [done|lia].
  - rewrite fmap_app. simpl.
    destruct (P _ _ Hp) as (Hs & Hlt & Hnot).
    split; [done|]. split; [done|]. split.
    { intros s' p'. rewrite lookup_delete. case_decide; [done|].
      intros H'. destruct (P _ _ H') as (Hs' & ? & ?). split; [done|]. split; [done|].
      rewrite not_elem_of_app. split; [done|].
      rewrite list_elem_of_singleton. intros Heq. apply H. lia. }
    split.
    { apply NoDup_app. split; [done|]. split; [|apply NoDup_singleton].
      intros x Hx. rewrite list_elem_of_singleton. intros ->. done. }
    split.
    { intros n. rewrite elem_of_app, list_elem_of_singleton.
      intros [Hn| ->]; [by apply B|done]. }
    intros n Hn.
    destruct (decide (n = promise p)) as [->|Hne].
    + left. rewrite elem_of_app, list_elem_of_singleton. by right.
    + destruct (T n Hn) as [?|(p' & Hq & Hpn)].
      * left. rewrite elem_of_app. by left.
      * right. exists p'. rewrite lookup_delete_ne; [done|lia].
Qed.

Lemma run_snoc (acts : list Action) (a : Action) (c : Client) :
  run (acts ++ [a]) c = step (run acts c) a.
Proof. unfold run. apply foldl_snoc. Qed.

Lemma run_app (acts acts' : list Action) (c : Client) :
  run (acts ++ acts') c = run acts' (run acts c).
Proof. unfold run. apply foldl_app. Qed.

Lemma correlator_ok_run (acts : list Action) (c : Client) :
  correlator_ok c -> correlator_ok (run acts c).
Proof.
  intros H. induction acts as [|a acts IH] using rev_ind; [done|].
  rewrite run_snoc. eapply correlator_ok_step; [exact IH|apply step_corr].
Qed.

Lemma checkAutoAnswer_calls (call : ref) (obj : Call) (c : Client) :
  same_calls c (checkAutoAnswer call obj c).1.
Proof. unfold checkAutoAnswer, answer. repeat case_match; simplify_eq; calm. Qed.

Lemma handleCallEvents_calls (event : option CallEventData) (c : Client) :
  calls_step c (handleCallEvents event c).1.
Proof.
  unfold handleCallEvents.
  destruct event as [event|]; [|apply same_calls_step; calm].
  destruct (e_event event =? CallActions.Ringing)%string.
  { destruct (new_Call (phone c) event) as [obj|] eqn:Hn; [|apply same_calls_step; calm].
    set (c1 := set_callStore _ _).
    assert (H1 : calls_step c c1) by (apply (calls_new _ _ obj); reflexivity).
    pose proof (checkAutoAnswer_calls (length (heap c)) obj c1) as H2.
    destruct (checkAutoAnswer _ obj c1) as [c2 [[]| |]]; simpl in H2.
    - eapply calls_step_same_r; [|apply emit_calls].
      eapply calls_step_same_r; [exact H1|exact H2].
    - eapply calls_step_same_r; [exact H1|exact H2].
    - eapply calls_step_same_r; [exact H1|exact H2]. }
  repeat case_match;
    try (apply on_call_calls; [|by (left + right)]);
    auto using setActive_id, setBridged_id, setExecute_id, addDigit_id,
      setHangup_id, setHold_id, setVoice_id, setSilence_id.
  apply same_calls_step; calm.
Qed.

Lemma connected_calls (info : option MessageData) (c : Client) :
  same_calls c (connected info c).1.
Proof. unfold connected. repeat case_match; calm. Qed.

Lemma onMessage_calls (message : Message) (c : Client) :
  calls_step c (onMessage message c).1.
Proof.
  unfold onMessage. set (c0 := effect _ c).
  assert (S0 : same_calls c c0) by calm.
  eapply calls_step_same_l; [exact S0|].
  repeat case_match; simplify_eq; simpl;
    try (apply same_calls_step; unfold handleUserStateEvent;
         first [apply emit_calls | calm]; fail).
  - unfold settle. eapply calls_step_same_l; [|apply resume_calls]. calm.
  - unfold settle. eapply calls_step_same_l; [|apply resume_calls]. calm.
  - apply same_calls_step.
    eapply same_calls_trans; [|apply log_opened_calls].
    match goal with H : connected ?i ?c = _ |- _ =>
      pose proof (connected_calls i c) as K; rewrite H in K; exact K end.
  - apply same_calls_step.
    match goal with H : connected ?i ?c = _ |- _ =>
      pose proof (connected_calls i c) as K; rewrite H in K; exact K end.
  - apply same_calls_step.
    match goal with H : connected ?i ?c = _ |- _ =>
      pose proof (connected_calls i c) as K; rewrite H in K; exact K end.
  - apply handleCallEvents_calls.
Qed.

Lemma with_obj_calls {A} (call : ref) (method : Call -> Client -> Client * A)
    (c : Client) :
  (forall obj c, same_calls c (method obj c).1) ->
  same_calls c (with_obj call method c).
Proof. intros H. unfold with_obj. destruct (heap c !! call); [apply H|calm]. Qed.

Lemma step_calls (c : Client) (a : Action) : calls_step c (step c a).
Proof.
  destruct a; simpl; try (apply same_calls_step; apply request_calls).
  all: try solve [apply same_calls_step, with_obj_calls; intros obj c';
            unfold hold, unHold, toggleHold, mute, hangup, sendDTMF, blindTransfer,
              hold, unHold;
            repeat case_match; calm].
  - apply same_calls_step, with_obj_calls. intros obj c'. simpl.
    apply with_obj_calls. intros obj' c''. calm.
  - apply onMessage_calls.
Qed.

Lemma registry_ok_run (acts : list Action) (c : Client) :
  registry_ok c -> registry_ok (run acts c).
Proof.
  intros H. induction acts as [|a acts IH] using rev_ind; [done|].
  rewrite run_snoc. eapply registry_ok_step; [exact IH|apply step_calls].
Qed.

Lemma evicted_run (r : ref) (acts : list Action) (c : Client) :
  evicted r c ->
  evicted r (run acts c)
  /\ forall {A} (f : Call -> A), (forall m o, f (set_muted m o) = f o) ->
       f <$> heap (run acts c) !! r = f <$> heap c !! r.
Proof.
  intros H. induction acts as [|a acts IH] using rev_ind; [done|].
  rewrite run_snoc. destruct IH as (E & F).
  destruct (evicted_step r _ _ E (step_calls (run acts c) a))
    as (E' & F').
  split; [done|]. intros A f Hf. rewrite (F' A f Hf). by apply F.
Qed.

(** The [hangup] case of [handleCallEvents] on a registered call. *)
Lemma handleCallEvents_hangup (c : Client) (e : CallEventData) (d : EventPayload)
    (r : ref) (obj : Call) :
  e_event e = CallActions.Hangup ->
  e_data e = Some d ->
  callStore c !! e_id e = Some r ->
  heap c !! r = Some obj ->
  handleCallEvents (Some e) c
  = (emit WEBSOCKET_EVENT_CALL (CallArgs CallActions.Hangup r)
       (evict (setHangup e obj).1
          (set_heap (<[r := (setHangup e obj).1]> (heap c)) c)),
     Fulfilled tt).
Proof.
  intros He Hd Hc Ho. unfold handleCallEvents. rewrite He. simpl.
  unfold on_call, callById. rewrite Hc, Ho.
  unfold setHangup at 1. rewrite Hd, He. simpl.
  unfold setHangup. rewrite Hd. reflexivity.
Qed.

(** C3, amended: a [hangup] event that carries its data object, for a
    registered call, sets [hangupAt] to the timestamp of the event, records
    the cause and the SIP status code, switches [voice] off and clears
    [peerStreams] on the object, and then deletes the registry entry, so
    that [callById] finds nothing; the subscribers are given the object
    after the transition; and whatever happens to the client later, a holder
    of the reference still reads the same terminal fields. *)
Theorem hangup_evicts_call_and_reference_keeps_terminal_fields
    (c : Client) (e : CallEventData) (d : EventPayload) (r : ref) (obj : Call)
    (later : list Action) :
  registry_ok c ->
  e_event e = CallActions.Hangup ->
  e_data e = Some d ->
  callById (e_id e) c = Some r ->
  heap c !! r = Some obj ->
  let c' := (handleCallEvents (Some e) c).1 in
  let terminal o :=
    (hangupAt o, hangupCause o, hangupSipCode o, voice o, peerStreams o, state o) in
  (handleCallEvents (Some e) c).2 = Fulfilled tt
  /\ terminal <$> heap c' !! r
     = Some (e_timestamp e, d_cause d, d_sip d, false, None, CallActions.Hangup)
  /\ callById (e_id e) c' = None
  /\ invocations (trace c')
     = invocations (trace c)
       ++ ((fun h => (WEBSOCKET_EVENT_CALL, h, CallArgs CallActions.Hangup r))
             <$> listeners WEBSOCKET_EVENT_CALL c)
  /\ terminal <$> heap (run later c') !! r
     = Some (e_timestamp e, d_cause d, d_sip d, false, None, CallActions.Hangup).
Proof.
  intros R He Hd Hc Ho c' terminal. unfold callById in Hc.
  assert (Hc' : c' = (emit WEBSOCKET_EVENT_CALL (CallArgs CallActions.Hangup r)
       (evict (setHangup e obj).1
          (set_heap (<[r := (setHangup e obj).1]> (heap c)) c)))).
  { subst c'. by rewrite (handleCallEvents_hangup c e d r obj). }
  destruct (setHangup_fields e d obj Hd) as (_ & F1 & F2 & F3 & F4 & F5 & F6 & F7).
  destruct (R _ _ Hc) as (o & Ho' & Hid).
  assert (o = obj) by congruence. subst o.
  assert (Hlt : (r < length (heap c))%nat) by (by eapply lookup_lt_Some).
  assert (Hh : heap c' = <[r := (setHangup e obj).1]> (heap c)).
  { rewrite Hc', emit_effects. reflexivity. }
  assert (Hs : callStore c' = delete (id obj) (callStore c)).
  { rewrite Hc', emit_effects. simpl. by rewrite F7. }
  assert (T : terminal <$> heap c' !! r
     = Some (e_timestamp e, d_cause d, d_sip d, false, None, CallActions.Hangup)).
  { rewrite Hh, list_lookup_insert_eq by done. simpl. unfold terminal.
    by rewrite F1, F2, F3, F4, F5, F6, He. }
  split. { by rewrite (handleCallEvents_hangup c e d r obj). }
  split; [exact T|].
  split. { unfold callById. rewrite Hs, Hid. apply lookup_delete_eq. }
  split.
  { rewrite Hc', emit_effects. simpl. rewrite invocations_app, invocations_invokes.
    reflexivity. }
  assert (E : evicted r c').
  { split; [by rewrite Hh, length_insert|].
    intros k. rewrite Hs, lookup_delete. case_decide; [done|].
    intros Hk. destruct (R _ _ Hk) as (o' & Ho'' & Hid'). congruence. }
  destruct (evicted_run r later c' E) as (_ & F).
  rewrite F; [exact T|done].
Qed.


(** ** Mute *)

Lemma reply_to_mute (c : Client) (s : Z) (p : PromiseCallback) (this : ref)
    (b : bool) (reply : Message) :
  queueRequest c !! s = Some p ->
  await p = KMute this b ->
  0 < s ->
  seq_reply reply = Some s ->
  heap (onMessage reply c).1
  = if str_is (status reply) Response.STATUS_OK
    then alter (set_muted b) this (heap c) else heap c.
Proof.
  intros Hp Hk Hpos Hs.
  destruct (onMessage_reply reply c s p Hs Hpos Hp)
    as (_ & _ & _ & _ & _ & ->).
  rewrite Hk. by destruct (str_is (status reply) Response.STATUS_OK).
Qed.

(** C10: [mute(m)] sends one [call_mute] request and leaves [_muted] as it
    is while the request is pending; a reply with status OK sets [_muted] to
    [m], and any other reply leaves the objects unchanged.  The same holds
    in whatever state the reply finds the client. *)
Theorem mute_flag_set_only_after_success
    (this : ref) (obj : Call) (m : option bool) (c : Client) (reply : Message) :
  0 <= reqSeq c ->
  heap c !! this = Some obj ->
  seq_reply reply = Some (reqSeq c + 1) ->
  let c1 := (mute this obj m c).1 in
  let c2 := (onMessage reply c1).1 in
  (sends (trace c1)
   = sends (trace c)
     ++ [{| seq := reqSeq c + 1; action := "call_mute";
            f_data := Some (call_key obj ++ [("mute", JBool (default false m))]) |}]
   /\ heap c1 = heap c)
  /\ (status reply = Some Response.STATUS_OK ->
      heap c2 = <[this := set_muted (default false m) obj]> (heap c)
      /\ muted <$> heap c2 !! this = Some (default false m))
  /\ (status reply <> Some Response.STATUS_OK ->
      heap c2 = heap c
      /\ muted <$> heap c2 !! this = Some (muted obj))
  /\ (forall c' s p b reply',
        queueRequest c' !! s = Some p -> await p = KMute this b -> 0 < s ->
        seq_reply reply' = Some s ->
        heap (onMessage reply' c').1
        = if str_is (status reply') Response.STATUS_OK
          then alter (set_muted b) this (heap c') else heap c').
Proof.
  intros Hseq Ho Hs c1 c2.
  assert (Hq : queueRequest c1 !! (reqSeq c + 1)
               = Some {| promise := length (sends (trace c));
                         await := KMute this (default false m) |}).
  { subst c1. unfold mute. simpl. apply lookup_insert_eq. }
  assert (Hh : heap c1 = heap c) by reflexivity.
  pose proof (reply_to_mute c1 _ _ this (default false m) reply Hq eq_refl
                ltac:(lia) Hs) as R.
  fold c2 in R. rewrite Hh in R.
  assert (Hlt : (this < length (heap c))%nat) by (by eapply lookup_lt_Some).
  split. { split; [|done]. subst c1. unfold mute. traces. }
  split.
  { intros E. apply str_is_true in E. rewrite E in R. rewrite R.
    assert (A : alter (set_muted (default false m)) this (heap c)
                = <[this := set_muted (default false m) obj]> (heap c)).
    { apply list_eq. intros i. destruct (decide (i = this)) as [->|Hne].
      - by rewrite list_lookup_alter_eq, list_lookup_insert_eq, Ho.
      - by rewrite list_lookup_alter_ne, list_lookup_insert_ne. }
    rewrite A. split; [done|]. by rewrite list_lookup_insert_eq. }
  split.
  { intros E. apply str_is_false in E. rewrite E in R. rewrite R.
    split; [done|]. by rewrite Ho. }
  intros c' s p b reply'. apply reply_to_mute.
Qed.

(** ** The registry *)

(** A [ringing] event always constructs an object and stores it under its
    id, whether or not the id has an entry. *)
Lemma ringing_constructs (e : CallEventData) (obj : Call) (c : Client) :
  e_event e = CallActions.Ringing ->
  new_Call (phone c) e = Normal obj ->
  let c' := (handleCallEvents (Some e) c).1 in
  heap c' = heap c ++ [obj]
  /\ callStore c' = <[e_id e := length (heap c)]> (callStore c).
Proof.
  intros He Hn. unfold handleCallEvents. rewrite He, Hn. simpl.
  destruct (new_Call_id _ _ _ Hn) as (Hid & _).
  match goal with |- context [checkAutoAnswer ?r ?o ?c1] =>
    pose proof (checkAutoAnswer_calls r o c1) as (H1 & H2);
    destruct (checkAutoAnswer r o c1) as [c2 [[]| |]] end;
    simpl in *; rewrite ?emit_effects; simpl; rewrite H1, H2, Hid; done.
Qed.

(** Every other event leaves the entries and the objects where they are. *)
Lemma other_events_in_place (e : CallEventData) (c : Client) :
  e_event e <> CallActions.Ringing ->
  let c' := (handleCallEvents (Some e) c).1 in
  length (heap c') = length (heap c)
  /\ forall k r, callStore c' !! k = Some r -> callStore c !! k = Some r.
Proof.
  intros He. apply eqb_false in He. unfold handleCallEvents. rewrite He.
  repeat case_match; try (apply on_call_in_place; by (left + right)).
  done.
Qed.

(** ** The dispatcher *)

Lemma unSubscribe_keeps_listeners (action : string) (handler : Handler)
    (data : option JObject) (c : Client) (reply : Message) :
  0 <= reqSeq c ->
  seq_reply reply = Some (reqSeq c + 1) ->
  let c1 := unSubscribe action handler data c in
  eventHandler c1 = eventHandler c
  /\ eventHandler (onMessage reply c1).1 = eventHandler c.
Proof.
  intros Hseq Hs c1. split; [done|].
  assert (Hq : queueRequest c1 !! (reqSeq c + 1)
               = Some {| promise := length (sends (trace c)); await := KReturn |}).
  { subst c1. unfold unSubscribe. simpl. apply lookup_insert_eq. }
  destruct (onMessage_reply reply c1 _ _ Hs
              ltac:(lia) Hq) as (_ & _ & _ & _ & _ & ->).
  reflexivity.
Qed.

(** ** The router *)

Lemma settlements_connected (info : option MessageData) (c : Client) :
  settlements (trace (connected info c).1) = settlements (trace c).
Proof. unfold connected, request. repeat case_match; traces. Qed.

Lemma event_settles_nothing (message : Message) (c : Client) :
  is_reply message = false ->
  settlements (trace (onMessage message c).1) = settlements (trace c).
Proof.
  intros R. unfold onMessage. rewrite R.
  repeat case_match; simplify_eq; simpl;
    try (unfold handleUserStateEvent; rewrite ?emit_effects; traces; fail).
  - destruct (log_opened_same c0) as (_ & _ & _ & ->).
    match goal with H : connected ?i ?c = _ |- _ =>
      pose proof (settlements_connected i c) as K; rewrite H in K end.
    simpl in K. rewrite K. traces.
  - match goal with H : connected ?i ?c = _ |- _ =>
      pose proof (settlements_connected i c) as K; rewrite H in K end.
    simpl in K. rewrite K. traces.
  - match goal with H : connected ?i ?c = _ |- _ =>
      pose proof (settlements_connected i c) as K; rewrite H in K end.
    simpl in K. rewrite K. traces.
  - match goal with |- context [handleCallEvents ?e ?c] =>
      destruct (handleCallEvents_same e c) as (_ & _ & _ & ->) end.
    traces.
Qed.

Lemma reply_emits_nothing (message : Message) (c : Client) :
  is_reply message = true ->
  (onMessage message c).2 = Fulfilled tt
  /\ invocations (trace (onMessage message c).1) = invocations (trace c)
  /\ callStore (onMessage message c).1 = callStore c.
Proof.
  intros R. unfold onMessage. rewrite R. unfold settle.
  repeat case_match; simpl; (split; [done|]);
    try match goal with |- context [resume ?k ?s ?c] =>
      destruct (resume_invocations k s c) as (-> & ->) end;
    simpl; rewrite ?invocations_app; simpl; rewrite ?app_nil_r; done.
Qed.

Lemma unrouted_event (message : Message) (c : Client) :
  is_reply message = false ->
  event message ∉ Some <$> routed_events ->
  onMessage message c
  = (effect (Log Err [LStr ("event " ++ show_str (event message)
                            ++ " not handler")%string])
       (effect (Log Debug [LStr "receive message: "; LMessage message]) c),
     Fulfilled tt).
Proof.
  intros R H. unfold onMessage. rewrite R.
  assert (F : forall name, name ∈ routed_events -> str_is (event message) name = false).
  { intros name Hn. apply str_is_false. intros E. apply H. rewrite E.
    by apply list_elem_of_fmap_2. }
  unfold routed_events in F.
  rewrite !F by (rewrite !elem_of_cons; auto 10).
  reflexivity.
Qed.

Lemma unhandled_action (e : CallEventData) (c : Client) :
  e_event e ∉ handled_actions ->
  handleCallEvents (Some e) c = (c, Rejected (Error "Unhandled action")).
Proof.
  intros H. unfold handleCallEvents.
  assert (F : forall a, a ∈ handled_actions -> (e_event e =? a)%string = false).
  { intros a Ha. apply eqb_false. intros E. apply H. by rewrite E. }
  unfold handled_actions in F.
  rewrite !F by (rewrite !elem_of_cons; auto 15).
  reflexivity.
Qed.

(** C8, amended: a message is handled as a reply (it settles at most a
    promise, invokes no handler, leaves the registry alone and is fulfilled)
    or as an event (it settles nothing), never both; an event whose name has
    no [case] is logged with [log.error] and the routing is fulfilled; but a
    call event whose action has no [case] is not logged: [handleCallEvents]
    throws "Unhandled action" and the promise of [onMessage] is rejected. *)
Theorem onMessage_routes_once_and_logs_unknown_events (message : Message) (c : Client) :
  let logged := effect (Log Debug [LStr "receive message: "; LMessage message]) c in
  let c' := (onMessage message c).1 in
  (is_reply message = true ->
     (onMessage message c).2 = Fulfilled tt
     /\ invocations (trace c') = invocations (trace c)
     /\ callStore c' = callStore c)
  /\ (is_reply message = false ->
     settlements (trace c') = settlements (trace c))
  /\ (is_reply message = false ->
     event message ∉ Some <$> routed_events ->
     onMessage message c
     = (effect (Log Err [LStr ("event " ++ show_str (event message)
                               ++ " not handler")%string]) logged,
        Fulfilled tt))
  /\ (forall d e,
        is_reply message = false ->
        event message = Some WEBSOCKET_EVENT_CALL ->
        data message = Some d ->
        md_call d = Some e ->
        e_event e ∉ handled_actions ->
        onMessage message c = (logged, Rejected (Error "Unhandled action"))).
Proof.
  intros logged c'.
  split; [apply reply_emits_nothing|].
  split; [apply event_settles_nothing|].
  split.
  { intros R H. rewrite (unrouted_event message c R H). reflexivity. }
  intros d e R He Hd Hc Ha. subst logged. unfold onMessage.
  rewrite R, He, Hd, Hc, (unhandled_action e _ Ha). reflexivity.
Qed.

End properties.

(** ** The concrete session *)

Lemma registry_ok_answered : registry_ok answered.
Proof.
  unfold answered, ringing, greeted.
  do 3 apply registry_ok_run. apply registry_ok_new.
Qed.

Lemma hangup_evicts_call_and_reference_keeps_terminal_fields_witness :
  let c' := (handleCallEvents false (Some hangup_c1) answered).1 in
  callById "c1" c' = None
  /\ (hangupAt <$> heap c' !! 0%nat) = Some 1010
  /\ (hangupCause <$>
        heap (run false a_phone [Receive (call_message ringing_c1)] c') !! 0%nat)
     = Some (Some "NORMAL_CLEARING").
Proof.
  destruct (hangup_evicts_call_and_reference_keeps_terminal_fields false a_phone
              answered hangup_c1
              (default no_payload (e_data hangup_c1)) 0%nat c1_active
              [Receive (call_message ringing_c1)]
              registry_ok_answered eq_refl eq_refl eq_refl eq_refl)
    as (_ & T & G & _ & L).
  cbv zeta. split; [exact G|]. split.
  - destruct (heap _ !! 0%nat) as [o|]; [|discriminate T].
    injection T as T1 _ _ _ _ _. simpl. by rewrite T1.
  - destruct (heap _ !! 0%nat) as [o|]; [|discriminate L].
    injection L as _ L2 _ _ _ _. simpl. by rewrite L2.
Defined.


Lemma mute_flag_set_only_after_success_witness :
  let c1 := (mute 0%nat c1_active (Some true) answered).1 in
  (muted <$> heap c1 !! 0%nat) = Some false
  /\ (muted <$> heap (onMessage false a_phone (reply_ok 1) c1).1 !! 0%nat) = Some true
  /\ (muted <$> heap (onMessage false a_phone (reply_fail 1) c1).1 !! 0%nat)
     = Some false.
Proof.
  assert (H0 : 0 <= reqSeq answered) by (vm_compute; discriminate).
  assert (H1 : heap answered !! 0%nat = Some c1_active) by (vm_compute; reflexivity).
  destruct (mute_flag_set_only_after_success false a_phone 0%nat c1_active
              (Some true) answered (reply_ok 1) H0 H1 eq_refl)
    as ((_ & A) & B & _).
  destruct (mute_flag_set_only_after_success false a_phone 0%nat c1_active
              (Some true) answered (reply_fail 1) H0 H1 eq_refl)
    as (_ & _ & C & _).
  cbv zeta. split; [by rewrite A, H1|].
  split; [apply B; reflexivity|].
  apply C. vm_compute. discriminate.
Defined.

Lemma onMessage_routes_once_and_logs_unknown_events_witness :
  onMessage false a_phone (event_message "queue_join_member" no_data) greeted
  = (effect (Log Err [LStr "event queue_join_member not handler"])
       (effect (Log Debug [LStr "receive message: ";
                           LMessage (event_message "queue_join_member" no_data)])
          greeted),
     Fulfilled tt)
  /\ (onMessage false a_phone (reply_ok 5) greeted).2 = Fulfilled tt.
Proof.
  destruct (onMessage_routes_once_and_logs_unknown_events false a_phone
              (event_message "queue_join_member" no_data) greeted)
    as (_ & _ & A & _).
  destruct (onMessage_routes_once_and_logs_unknown_events false a_phone
              (reply_ok 5) greeted) as (B & _).
  split.
  - rewrite A; [reflexivity | reflexivity |].
    unfold routed_events. rewrite !fmap_cons, !not_elem_of_cons.
    repeat split; try discriminate. apply not_elem_of_nil.
  - apply B. reflexivity.
Defined.

(** C3, as stated, fails for a [hangup] event that carries no data
    object, which [CallEventData] allows: [setHangup] throws on reading the
    cause, after it has assigned [hangupAt].  The call stays in the registry
    with its state, its voice flag and no cause, no subscriber is told, and
    a second such event assigns [hangupAt] again. *)
Lemma hangup_without_data_leaves_the_call_registered :
  let first := call_event "c1" "hangup" 1010 None in
  let second := call_event "c1" "hangup" 1020 None in
  let c' := run false a_phone [Receive (call_message first)] answered in
  let c'' := run false a_phone [Receive (call_message second)] c' in
  callById "c1" answered = Some 0%nat
  /\ (handleCallEvents false (Some first) answered).2 = Rejected TypeError
  /\ callById "c1" c' = Some 0%nat
  /\ ((fun o => (hangupAt o, hangupCause o, voice o, state o)) <$> heap c' !! 0%nat)
     = Some (1010, None, true, "active")
  /\ invocations (trace c') = invocations (trace answered)
  /\ callById "c1" c'' = Some 0%nat
  /\ (hangupAt <$> heap c'' !! 0%nat) = Some 1020.
Proof. vm_compute. repeat split. Qed.

(** C8, as stated, fails: the call event "update" makes the routing
    reject with "Unhandled action", and the only line logged is the debug line
    every message gets. *)
Lemma unhandled_call_action_rejects :
  update_c1 = call_event "c1" CallActions.Update 1006 None
  /\ onMessage false a_phone (call_message update_c1) answered
     = (effect (Log Debug [LStr "receive message: ";
                           LMessage (call_message update_c1)]) answered,
        Rejected (Error "Unhandled action")).
Proof. split; reflexivity. Qed.

(** C2: the first [ringing] event for "c1" creates one object and one
    entry; but a second [ringing] event for the same id constructs another
    object and overwrites the entry: the registry now refers to object 1,
    not answered and in state "ringing", while the holder of object 0 keeps
    the answered call. *)
Theorem second_ringing_event_replaces_the_call :
  let again := (handleCallEvents false (Some ringing_c1) answered).1 in
  (callById "c1" greeted = None
   /\ callById "c1" ringing = Some 0%nat
   /\ heap ringing = [c1_new])
  /\ (callById "c1" answered = Some 0%nat
      /\ heap answered = [c1_active]
      /\ answeredAt c1_active = 1005)
  /\ (callById "c1" again = Some 1%nat
      /\ heap again = [c1_active; c1_new]
      /\ answeredAt c1_new = 0
      /\ state c1_new = "ringing").
Proof. vm_compute. repeat split. Qed.

(** C7: after [subscribeCall h] and [unSubscribe "call" h], both
    acknowledged by the server, [h] is still a listener of the "call"
    channel and the next call event invokes it. *)
Theorem unSubscribe_leaves_the_handler_subscribed :
  let h : Handler := 7%nat in
  let c1 := (onMessage false a_phone (reply_ok 1) (subscribeCall h None greeted)).1 in
  let c2 := (onMessage false a_phone (reply_ok 2) (unSubscribe "call" h None c1)).1 in
  let c3 := (onMessage false a_phone (call_message ringing_c1) c2).1 in
  listeners WEBSOCKET_EVENT_CALL greeted = []
  /\ listeners WEBSOCKET_EVENT_CALL c1 = [h]
  /\ action <$> sends (trace c2) = ["subscribe_call"; "un_subscribe_call"]
  /\ settlements (trace c2)
     = [(0%nat, Resolved (Some no_data)); (1%nat, Resolved (Some no_data))]
  /\ listeners WEBSOCKET_EVENT_CALL c2 = [h]
  /\ invocations (trace c3) = [(WEBSOCKET_EVENT_CALL, h, CallArgs "ringing" 0%nat)].
Proof. vm_compute. repeat split. Qed.

(** * Further properties of call.ts *)

(** ** Control requests *)

(** X1: [hangup(cause)] never rejects locally and sends one [call_hangup]
    request whatever the state of the call.  Without a cause (missing or the
    empty string) on a call never answered, the cause sent is "USER_BUSY"
    for an inbound call and "ORIGINATOR_CANCEL" for any other direction;
    otherwise the cause sent is the one given, missing if none was. *)
Theorem hangup_infers_the_cause (obj : Call) (cause : option string) (c : Client) :
  let frame x :=
    {| seq := reqSeq c + 1; action := "call_hangup";
       f_data := Some (call_key obj ++ [("cause", opt_str x)]) |} in
  let sent := sends (trace (hangup obj cause c).1) in
  (hangup obj cause c).2 = Pending
  /\ (answeredAt obj = 0 -> truthy cause = false ->
      direction obj = Some CallDirection.Inbound ->
      sent = sends (trace c) ++ [frame (Some "USER_BUSY")])
  /\ (answeredAt obj = 0 -> truthy cause = false ->
      direction obj <> Some CallDirection.Inbound ->
      sent = sends (trace c) ++ [frame (Some "ORIGINATOR_CANCEL")])
  /\ (answeredAt obj <> 0 \/ truthy cause = true ->
      sent = sends (trace c) ++ [frame cause]).
Proof.
  intros frame sent. subst sent. unfold hangup.
  split; [done|]. split; [|split].
  - intros A T D. apply str_is_true in D. rewrite A, T, D. traces.
  - intros A T D. apply str_is_false in D. rewrite A, T, D. traces.
  - intros [A|T].
    + apply Z.eqb_neq in A. rewrite A. traces.
    + rewrite T, andb_false_r. traces.
Qed.

Lemma hangup_infers_the_cause_witness :
  sends (trace (hangup c1_new None ringing).1)
  = sends (trace ringing)
    ++ [{| seq := 1; action := "call_hangup";
           f_data := Some [("id", JStr "c1"); ("app_id", JStr "app-1");
                           ("cause", JStr "USER_BUSY")] |}]
  /\ sends (trace (hangup c1_active None answered).1)
     = sends (trace answered)
       ++ [{| seq := 1; action := "call_hangup";
              f_data := Some [("id", JStr "c1"); ("app_id", JStr "app-1");
                              ("cause", JUndefined)] |}].
Proof.
  destruct (hangup_infers_the_cause c1_new None ringing) as (_ & A & _).
  destruct (hangup_infers_the_cause c1_active None answered) as (_ & _ & _ & B).
  split.
  - apply A; reflexivity.
  - apply B. left. vm_compute. discriminate.
Defined.

(** X2: [toggleHold()] never rejects locally: it sends exactly one request,
    [call_unhold] when the state is "hold" and [call_hold] in every other
    state. *)
Theorem toggleHold_always_sends_one_request (obj : Call) (c : Client) :
  (toggleHold obj c).2 = Pending
  /\ sends (trace (toggleHold obj c).1)
     = sends (trace c)
       ++ [{| seq := reqSeq c + 1;
              action := if (state obj =? "hold")%string
                        then "call_unhold" else "call_hold";
              f_data := Some (call_key obj) |}]
  /\ queueRequest (toggleHold obj c).1 !! (reqSeq c + 1)
     = Some {| promise := length (sends (trace c)); await := KReturn |}.
Proof.
  unfold toggleHold, hold, unHold, CallActions.Hold.
  destruct (state obj =? "hold")%string; simpl;
    (split; [done|]); (split; [traces|apply lookup_insert_eq]).
Qed.

(** ** The SIP session of a call *)

(** X3: [setSip] assigns the session once: on a call without a session it
    stores the session and takes the streams of its connection (an empty list
    of streams becomes null; without a connection the streams are left
    alone); once a session is stored, or when the argument is null, it
    changes nothing. *)
Theorem setSip_first_session_wins (s1 : SipSession) (s2 : option SipSession)
    (c : Call) :
  sip c = None ->
  sip (setSip (Some s1) c) = Some s1
  /\ setSip s2 (setSip (Some s1) c) = setSip (Some s1) c
  /\ setSip None c = c
  /\ (connection s1 = None ->
      localStreams (setSip (Some s1) c) = localStreams c
      /\ peerStreams (setSip (Some s1) c) = peerStreams c)
  /\ (forall conn, connection s1 = Some conn ->
      localStreams (setSip (Some s1) c) = non_empty (getLocalStreams conn)
      /\ peerStreams (setSip (Some s1) c) = non_empty (getRemoteStreams conn)).
Proof.
  intros H.
  assert (S1 : sip (setSip (Some s1) c) = Some s1).
  { unfold setSip. rewrite H. by destruct (connection s1). }
  split; [done|]. split.
  { unfold setSip at 1. rewrite S1. by destruct s2. }
  split; [reflexivity|]. split.
  - intros C. unfold setSip. by rewrite H, C.
  - intros conn C. unfold setSip. by rewrite H, C.
Qed.

Lemma setSip_first_session_wins_witness :
  let s := {| session_id := "sip-1";
              connection := Some {| getLocalStreams := [1%nat];
                                    getRemoteStreams := [] |} |} in
  localStreams (setSip (Some s) c1_new) = Some [1%nat]
  /\ peerStreams (setSip (Some s) c1_new) = None
  /\ setSip (Some {| session_id := "sip-2"; connection := None |})
       (setSip (Some s) c1_new)
     = setSip (Some s) c1_new.
Proof.
  intros s.
  destruct (setSip_first_session_wins s
              (Some {| session_id := "sip-2"; connection := None |}) c1_new
              eq_refl) as (_ & A & _ & _ & B).
  destruct (B _ eq_refl) as (B1 & B2).
  split; [exact B1|]. split; [exact B2|exact A].
Defined.

(** ** The constructor *)

(** X4: given a phone and an event that carries its data object, the
    constructor does not throw.  The new call has the id, application id and
    timestamp of the event and the event name as state; it is not answered,
    bridged or hung up, not muted, with voice on and empty digit and
    application logs.  Its session is looked up by [sip_id] when the event
    has a non-empty one and by call id otherwise, but the streams are null
    even when that session has streams; an empty [sip_id] is stored as
    null. *)
Theorem new_Call_fields (ph : SipPhone) (e : CallEventData) (d : EventPayload) :
  e_data e = Some d ->
  exists obj,
    new_Call (Some ph) e = Normal obj
    /\ constructed obj
       = (e_id e, e_app_id e, e_timestamp e, d_direction d, d_destination d,
          d_from d, d_parent_id d, d_payload d, d_queue d, or_null (d_sip_id d),
          d_params d)
    /\ lifecycle obj = (e_event e, 0, 0, 0, None, d_to d, None, None)
    /\ (_muted obj, voice obj, digits obj, applications obj) = (false, true, [], [])
    /\ (peerStreams obj, localStreams obj) = (None, None)
    /\ sip obj
       = match d_sip_id d with
         | Some sid => if truthy (Some sid) then sipSessionBySipId ph sid
                       else sipSessionByCallId ph (e_id e)
         | None => sipSessionByCallId ph (e_id e)
         end.
Proof.
  intros H. unfold new_Call. rewrite H. eexists. split; [reflexivity|].
  unfold constructed, lifecycle, setSip, truthy.
  repeat case_match; simplify_eq/=; repeat split; congruence.
Qed.

Lemma new_Call_fields_witness :
  exists obj,
    new_Call (Some no_sessions) ringing_c1 = Normal obj
    /\ id obj = "c1" /\ state obj = "ringing" /\ createdAt obj = 1000
    /\ sipId obj = None /\ peerStreams obj = None.
Proof.
  destruct (new_Call_fields no_sessions ringing_c1
              (default no_payload (e_data ringing_c1)) eq_refl)
    as (obj & N & C & L & _ & P & _).
  exists obj. split; [exact N|].
  injection C as C1 _ C3 _ _ _ _ _ _ C10 _.
  injection L as L1 _ _ _ _ _ _ _.
  injection P as P1 _.
  repeat split; assumption.
Defined.

(** ** Duration and the permission getters *)

(** X5: once [hangupAt] is set the duration no longer depends on the clock;
    before, it does not decrease as the clock advances and is not negative
    from the creation time on. *)
Theorem duration_frozen_after_hangup (c : Call) (now now' : Z) :
  (hangupAt c <> 0 -> duration now c = duration now' c)
  /\ (hangupAt c = 0 -> now <= now' -> duration now c <= duration now' c)
  /\ (hangupAt c = 0 -> createdAt c <= now -> 0 <= duration now c).
Proof.
  unfold duration, Math_round_div. split; [|split].
  - intros H. apply Z.eqb_neq in H. by rewrite H.
  - intros -> H. simpl. apply Z.div_le_mono; lia.
  - intros -> H. simpl. apply Z.div_pos; lia.
Qed.

Lemma duration_frozen_after_hangup_witness :
  duration 5000 (set_hangupAt 3600 c1_active)
  = duration 999999 (set_hangupAt 3600 c1_active)
  /\ duration 5000 c1_active <= duration 999999 c1_active.
Proof.
  destruct (duration_frozen_after_hangup (set_hangupAt 3600 c1_active) 5000 999999)
    as (A & _).
  destruct (duration_frozen_after_hangup c1_active 5000 999999) as (_ & B & _).
  split.
  - apply A. vm_compute. discriminate.
  - apply B; [reflexivity | vm_compute; discriminate].
Defined.

(** X6: the permission getters never contradict each other.  Answering and
    sending DTMF are never both allowed, nor are hold and unhold; whatever is
    allowed, hanging up is allowed too; and once [hangupAt] is set nothing is
    allowed and the call is no longer active. *)
Theorem permissions_are_consistent (obj : Call) :
  (allowAnswer obj && allowDtmf obj = false)
  /\ (allowHold obj && allowUnHold obj = false)
  /\ (allowAnswer obj || allowDtmf obj || allowHold obj || allowUnHold obj = true ->
      allowHangup obj = true /\ active obj = true)
  /\ (hangupAt obj <> 0 ->
      allowHangup obj = false /\ allowAnswer obj = false /\ allowDtmf obj = false
      /\ allowHold obj = false /\ allowUnHold obj = false /\ active obj = false).
Proof.
  unfold allowAnswer, allowDtmf, allowHold, allowUnHold, allowHangup, active.
  destruct (Z.eqb_spec (hangupAt obj) 0) as [H|H]; simpl.
  - split; [|split; [|split]]; try done.
    + destruct (Z.eqb_spec (answeredAt obj) 0) as [E|E]; [|reflexivity].
      rewrite E. reflexivity.
    + destruct (String.eqb_spec (state obj) "hold") as [E|E].
      * rewrite E. reflexivity.
      * apply andb_false_r.
  - rewrite !andb_false_r. done.
Qed.

Lemma permissions_are_consistent_witness :
  allowHangup (set_hangupAt 1010 c1_active) = false
  /\ allowDtmf (set_hangupAt 1010 c1_active) = false
  /\ allowHangup c1_active = true.
Proof.
  destruct (permissions_are_consistent (set_hangupAt 1010 c1_active))
    as (_ & _ & _ & A).
  destruct (permissions_are_consistent c1_active) as (_ & _ & B & _).
  destruct A as (A1 & _ & A3 & _); [vm_compute; discriminate|].
  destruct B as (B1 & _); [reflexivity|].
  repeat split; assumption.
Defined.

(** ** Eavesdrop and the display getters *)

Lemma get_prop_set_prop_eq (k : string) (v : Atom) (o : JObject) :
  get_prop k (set_prop k v o) = v.
Proof.
  induction o as [|[k' v'] o IH]; simpl.
  - by rewrite String.eqb_refl.
  - destruct (k' =? k)%string eqn:E; simpl.
    + by rewrite String.eqb_refl.
    + by rewrite E.
Qed.

Lemma get_prop_set_prop_ne (k k0 : string) (v : Atom) (o : JObject) :
  k0 <> k -> get_prop k0 (set_prop k v o) = get_prop k0 o.
Proof.
  intros H. induction o as [|[k' v'] o IH]; simpl.
  - apply eqb_false in H. rewrite String.eqb_sym. by rewrite H.
  - destruct (String.eqb_spec k' k) as [->|E]; simpl.
    + apply not_eq_sym, eqb_false in H. by rewrite H.
    + by rewrite IH.
Qed.

(** X7: [eavesdrop(req)] sends one [call_eavesdrop] request whose [id] is
    the id of the call, whatever [id] the caller put in [req]; every other
    property of [req] is sent as given. *)
Theorem eavesdrop_sends_the_call_id (obj : Call) (req : JObject) (c : Client) :
  exists data,
    (eavesdrop obj req c).2 = Pending
    /\ sends (trace (eavesdrop obj req c).1)
       = sends (trace c)
         ++ [{| seq := reqSeq c + 1; action := "call_eavesdrop";
                f_data := Some data |}]
    /\ get_prop "id" data = JStr (id obj)
    /\ forall k, k <> "id" -> get_prop k data = get_prop k req.
Proof.
  exists (set_prop "id" (JStr (id obj)) req).
  split; [done|]. split; [unfold eavesdrop; traces|].
  split; [apply get_prop_set_prop_eq|].
  intros k H. by apply get_prop_set_prop_ne.
Qed.




(** * Further properties of client.ts *)


(** What [on_call] does when the call is registered and the method
    returns. *)
Lemma on_call_registered (event : CallEventData) method rest (c : Client)
    (r : ref) (obj obj' : Call) :
  callById (e_id event) c = Some r ->
  heap c !! r = Some obj ->
  method obj = (obj', Normal tt) ->
  on_call event method rest c
  = (emit WEBSOCKET_EVENT_CALL (CallArgs (e_event event) r)
       (rest obj' (set_heap (<[r := obj']> (heap c)) c)),
     Fulfilled tt).
Proof. intros Hc Ho Hm. unfold on_call. by rewrite Hc, Ho, Hm. Qed.

Lemma set_digits_digits (obj : Call) : set_digits (digits obj) obj = obj.
Proof. by destruct obj. Qed.

Lemma set_digits_set_digits (l l' : list (option string)) (obj : Call) :
  set_digits l' (set_digits l obj) = set_digits l' obj.
Proof. reflexivity. Qed.

(** ** The channels handlers are invoked on *)

Lemma published_invokes (channel : string) (args : EmitArgs) (l : list Handler) :
  channel ∈ published_channels ->
  Forall on_published_channel ((fun h => Invoke channel h args) <$> l).
Proof. intros H. induction l; constructor; done. Qed.

Lemma published_emit (channel : string) (args : EmitArgs) (c : Client) :
  channel ∈ published_channels ->
  Forall on_published_channel (trace c) ->
  Forall on_published_channel (trace (emit channel args c)).
Proof.
  intros H T. rewrite emit_effects. simpl. apply Forall_app.
  split; [done|]. by apply published_invokes.
Qed.

Lemma published_effect (e : Effect) (c : Client) :
  on_published_channel e ->
  Forall on_published_channel (trace c) ->
  Forall on_published_channel (trace (effect e c)).
Proof. intros H T. simpl. apply Forall_app. split; [done|]. by constructor. Qed.

Lemma published_call : WEBSOCKET_EVENT_CALL ∈ published_channels.
Proof. unfold published_channels. rewrite !elem_of_cons. auto. Qed.

Lemma published_log_opened (c : Client) :
  Forall on_published_channel (trace c) ->
  Forall on_published_channel (trace (log_opened c).1).
Proof.
  intros T. unfold log_opened. repeat case_match; simpl; try done.
  by apply published_effect.
Qed.

Lemma published_resume (k : Continuation) (s : Settlement) (c : Client) :
  Forall on_published_channel (trace c) ->
  Forall on_published_channel (trace (resume k s c)).
Proof.
  intros T. destruct k, s; simpl; try done;
    by apply published_log_opened, published_effect.
Qed.

Lemma published_request (action : string) (data : option JObject)
    (k : Continuation) (c : Client) :
  Forall on_published_channel (trace c) ->
  Forall on_published_channel (trace (request action data k c)).
Proof. intros T. by apply published_effect. Qed.

Lemma published_on_call (event : CallEventData) method rest (c : Client) :
  rest = nothing \/ rest = evict ->
  Forall on_published_channel (trace c) ->
  Forall on_published_channel (trace (on_call event method rest c).1).
Proof.
  intros Hrest T. unfold on_call. repeat case_match; simpl; try done.
  apply published_emit; [apply published_call|].
  by destruct Hrest as [-> | ->].
Qed.

(** ** What the constructor gave a call stays *)

Lemma objects_kept_same (c c' : Client) : same_calls c c' -> objects_kept c c'.
Proof. intros (E & _) r obj H. rewrite E. eauto. Qed.

Lemma objects_kept_trans (c1 c2 c3 : Client) :
  objects_kept c1 c2 -> objects_kept c2 c3 -> objects_kept c1 c3.
Proof.
  intros A B r obj H. destruct (A _ _ H) as (o2 & H2 & E2).
  destruct (B _ _ H2) as (o3 & H3 & E3). exists o3. split; [done|congruence].
Qed.

Lemma objects_kept_resume (k : Continuation) (s : Settlement) (c : Client) :
  objects_kept c (resume k s c).
Proof.
  destruct k as [| channel handler | r m |], s;
    try (apply objects_kept_same; split; reflexivity);
    try (apply objects_kept_same;
         eapply same_calls_trans; [|apply log_opened_calls]; split; reflexivity).
  intros r' obj H. simpl.
  destruct (decide (r = r')) as [E|Hne]; [subst r'|].
  - rewrite list_lookup_alter_eq, H. simpl. eauto.
  - rewrite list_lookup_alter_ne by done. eauto.
Qed.

Lemma objects_kept_on_call (event : CallEventData) method rest (c : Client) :
  (forall o, constructed (method o).1 = constructed o) ->
  rest = nothing \/ rest = evict ->
  objects_kept c (on_call event method rest c).1.
Proof.
  intros Hm Hrest. unfold on_call.
  destruct (callById (e_id event) c) as [call|]; [|by apply objects_kept_same].
  destruct (heap c !! call) as [obj|] eqn:Ho; [|by apply objects_kept_same].
  pose proof (Hm obj) as Hk. destruct (method obj) as [obj' res]. simpl in Hk.
  assert (K : forall c', heap c' = <[call := obj']> (heap c) -> objects_kept c c').
  { intros c' E r o H. rewrite E.
    destruct (decide (call = r)) as [Er|Hne]; [subst r|].
    - rewrite list_lookup_insert_eq by (by eapply lookup_lt_Some).
      exists obj'. split; [done|]. congruence.
    - rewrite list_lookup_insert_ne by done. eauto. }
  destruct res as [[]|e]; simpl; apply K; [|done].
  rewrite emit_effects. by destruct Hrest as [-> | ->].
Qed.

(** What [on_call] does when the call is registered and the method
    throws. *)
Lemma on_call_throws (event : CallEventData) method rest (c : Client)
    (r : ref) (obj obj' : Call) (ex : Exn) :
  callById (e_id event) c = Some r ->
  heap c !! r = Some obj ->
  method obj = (obj', Throw ex) ->
  on_call event method rest c
  = (set_heap (<[r := obj']> (heap c)) c, Rejected ex).
Proof. intros Hc Ho Hm. unfold on_call. by rewrite Hc, Ho, Hm. Qed.

(** ** Further properties of client.ts, for every document and phone *)

Section more_properties.

Variable document_hidden : bool.
Variable new_SipPhone : option string -> option bool -> SipPhone.

Local Abbreviation handleCallEvents := (handleCallEvents document_hidden).
Local Abbreviation checkAutoAnswer := (checkAutoAnswer document_hidden).
Local Abbreviation connected := (connected new_SipPhone).
Local Abbreviation onMessage := (onMessage document_hidden new_SipPhone).
Local Abbreviation step := (step document_hidden new_SipPhone).
Local Abbreviation run := (run document_hidden new_SipPhone).

(** ** Subscriptions *)


(** ** Call events *)

(** X10: a call event other than [ringing] for an id the registry does not
    know is dropped without a trace: the client is left exactly as it was,
    nothing is logged and no handler is invoked. *)
Theorem event_for_unknown_call_is_dropped (e : CallEventData) (c : Client) :
  e_event e ∈ handled_actions ->
  e_event e <> CallActions.Ringing ->
  callById (e_id e) c = None ->
  handleCallEvents (Some e) c = (c, Fulfilled tt).
Proof.
  intros Ha Hr Hc. unfold handled_actions in Ha.
  rewrite !elem_of_cons in Ha. unfold handleCallEvents, on_call.
  rewrite Hc.
  destruct Ha as [E|[E|[E|[E|[E|[E|[E|[E|[E|E]]]]]]]]];
    try (by apply elem_of_nil in E); rewrite E in *; try done.
Qed.

(** X11: a [ringing] event that arrives before the greeting, when the client
    has no phone yet, or that carries no data object creates nothing: the
    constructor throws, the client is left as it was and no handler is
    invoked. *)
Theorem ringing_before_greeting_creates_nothing (e : CallEventData) (c : Client) :
  e_event e = CallActions.Ringing ->
  phone c = None \/ e_data e = None ->
  handleCallEvents (Some e) c = (c, Rejected TypeError).
Proof.
  intros He H. unfold handleCallEvents, new_Call. rewrite He. simpl.
  destruct H as [-> | ->]; [by destruct (e_data e)|done].
Qed.

(** X12: the state machine refuses no transition.  An [active] or a [hold]
    event for a registered call sets its state to the name of the event
    whatever the state was; [hold] changes nothing else, and both notify
    the subscribers and leave the call registered. *)
Theorem state_events_are_never_refused (e : CallEventData) (c : Client)
    (r : ref) (obj : Call) :
  e_event e = CallActions.Active \/ e_event e = CallActions.Hold ->
  callById (e_id e) c = Some r ->
  heap c !! r = Some obj ->
  let c' := (handleCallEvents (Some e) c).1 in
  (handleCallEvents (Some e) c).2 = Fulfilled tt
  /\ state <$> heap c' !! r = Some (e_event e)
  /\ callStore c' = callStore c
  /\ (e_event e = CallActions.Hold ->
      heap c' = <[r := set_state CallActions.Hold obj]> (heap c))
  /\ invocations (trace c')
     = invocations (trace c)
       ++ ((fun h => (WEBSOCKET_EVENT_CALL, h, CallArgs (e_event e) r))
             <$> listeners WEBSOCKET_EVENT_CALL c).
Proof.
  intros He Hc Ho c'.
  assert (Hlt : (r < length (heap c))%nat) by (by eapply lookup_lt_Some).
  assert (E : exists obj',
             handleCallEvents (Some e) c
             = (emit WEBSOCKET_EVENT_CALL (CallArgs (e_event e) r)
                  (set_heap (<[r := obj']> (heap c)) c), Fulfilled tt)
             /\ state obj' = e_event e
             /\ (e_event e = CallActions.Hold -> obj' = set_state CallActions.Hold obj)).
  { destruct He as [He|He].
    - exists (setActive e obj). split; [|split].
      + unfold handleCallEvents. rewrite He. simpl. rewrite <- He.
        exact (on_call_registered e (total (setActive e)) nothing c r obj _
                 Hc Ho eq_refl).
      + unfold setActive. by destruct (answeredAt obj =? 0).
      + rewrite He. discriminate.
    - exists (setHold e obj). split; [|split].
      + unfold handleCallEvents. rewrite He. simpl. rewrite <- He.
        exact (on_call_registered e (total (setHold e)) nothing c r obj _
                 Hc Ho eq_refl).
      + done.
      + intros _. unfold setHold, setState. by rewrite He. }
  destruct E as (obj' & E & S & H). subst c'. rewrite E, emit_effects. simpl.
  split; [done|]. split.
  { by rewrite list_lookup_insert_eq, <- S. }
  split; [done|]. split.
  { intros Hh. by rewrite (H Hh). }
  by rewrite invocations_app, invocations_invokes.
Qed.

Lemma receive_dtmf (e : CallEventData) (d : EventPayload) (c : Client)
    (r : ref) (obj : Call) :
  e_event e = CallActions.DTMF ->
  e_data e = Some d ->
  callById (e_id e) c = Some r ->
  heap c !! r = Some obj ->
  let c' := step c (Receive (call_message e)) in
  heap c' = <[r := set_digits (digits obj ++ [d_digit d]) obj]> (heap c)
  /\ callStore c' = callStore c
  /\ eventHandler c' = eventHandler c
  /\ queueRequest c' = queueRequest c
  /\ sends (trace c') = sends (trace c).
Proof.
  intros He Hd Hc Ho. simpl. unfold onMessage. simpl.
  unfold handleCallEvents. rewrite He. simpl.
  rewrite (on_call_registered e (addDigit (e_data e)) nothing _ r obj
             (set_digits (digits obj ++ [d_digit d]) obj)); try done.
  - rewrite emit_effects. simpl. repeat split. traces.
  - unfold addDigit. by rewrite Hd.
Qed.

(** X13: [dtmf] events with data for a registered call append their digits
    to the digit log of the call, in the order of arrival, and change nothing
    else: every other field of the call, every other object, the registry,
    the listeners and the pending requests stay as they are, and no request
    is sent. *)
Theorem dtmf_digits_are_logged_in_order (es : list CallEventData) (c : Client)
    (k : string) (r : ref) (obj : Call) :
  callById k c = Some r ->
  heap c !! r = Some obj ->
  Forall (fun e => e_id e = k /\ e_event e = CallActions.DTMF
                   /\ is_Some (e_data e)) es ->
  let c' := run (call_messages es) c in
  heap c'
  = <[r := set_digits (digits obj ++ ((fun e => e_data e ≫= d_digit) <$> es)) obj]>
      (heap c)
  /\ callStore c' = callStore c
  /\ eventHandler c' = eventHandler c
  /\ queueRequest c' = queueRequest c
  /\ sends (trace c') = sends (trace c).
Proof.
  intros Hc Ho Hes. revert c obj Hc Ho.
  induction Hes as [|e es (Hid & He & [d Hd]) _ IH]; intros c obj Hc Ho.
  - simpl. rewrite app_nil_r, set_digits_digits, list_insert_id; done.
  - subst k.
    destruct (receive_dtmf e d c r obj He Hd Hc Ho) as (H1 & H2 & H3 & H4 & H5).
    assert (Hlt : (r < length (heap c))%nat) by (by eapply lookup_lt_Some).
    set (c1 := step c (Receive (call_message e))) in *.
    destruct (IH c1 (set_digits (digits obj ++ [d_digit d]) obj)) as (I1 & I2 & I3 & I4 & I5).
    { unfold callById. by rewrite H2. }
    { rewrite H1. by apply list_lookup_insert_eq. }
    cbv zeta. change (run (call_messages (e :: es)) c) with (run (call_messages es) c1).
    rewrite I1, I2, I3, I4, I5, H1, H2, H3, H4, H5.
    split; [|done].
    rewrite list_insert_insert_eq, set_digits_set_digits. simpl.
    by rewrite Hd, <- app_assoc.
Qed.

(** ** Auto answer *)

(** X14: what a [ringing] event does besides storing the new call.  The
    call is answered through its SIP session, with the video, screen and
    STUN settings of its parameters, exactly when the document is visible,
    the call comes from an offline or preview queue, and it has parameters
    and a session; in every other case but one nothing is answered; either
    way the subscribers are then told.  The exception: a visible document,
    an offline or preview queue and a call without parameters make the
    handler throw after the call is stored, and no subscriber is told. *)
Theorem ringing_answers_queue_calls_when_visible
    (e : CallEventData) (obj : Call) (c : Client) :
  e_event e = CallActions.Ringing ->
  new_Call (phone c) e = Normal obj ->
  let r := length (heap c) in
  let result := handleCallEvents (Some e) c in
  let told := (fun h => Invoke WEBSOCKET_EVENT_CALL h (CallArgs CallActions.Ringing r))
                <$> listeners WEBSOCKET_EVENT_CALL c in
  (forall p s,
      document_hidden = false -> autoAnswer obj = true ->
      params obj = Some p -> sip obj = Some s ->
      result.2 = Fulfilled tt
      /\ trace result.1
         = trace c
           ++ [SipAnswer r {| ar_audio := None; ar_video := cp_video p;
                              ar_screen := cp_screen p;
                              ar_disableStun := cp_disableStun p |}]
           ++ told)
  /\ (document_hidden = true \/ autoAnswer obj = false
      \/ (is_Some (params obj) /\ sip obj = None) ->
      result.2 = Fulfilled tt /\ trace result.1 = trace c ++ told)
  /\ (document_hidden = false -> autoAnswer obj = true -> params obj = None ->
      result.2 = Rejected TypeError
      /\ trace result.1 = trace c
      /\ callById (e_id e) result.1 = Some r
      /\ heap result.1 = heap c ++ [obj]).
Proof.
  intros He Hn r result told. subst result.
  destruct (new_Call_id _ _ _ Hn) as (Hid & _).
  unfold handleCallEvents. rewrite He, Hn. simpl.
  unfold checkAutoAnswer, answer. fold r.
  split; [|split].
  - intros p s -> -> -> ->. simpl. rewrite emit_effects. simpl.
    split; [done|]. by rewrite <- app_assoc.
  - intros [-> | [-> | ([p ->] & ->)]]; rewrite ?andb_false_r; simpl;
      repeat case_match; simplify_eq; rewrite ?emit_effects; done.
  - intros -> -> ->. simpl. split; [done|]. split; [done|]. split; [|done].
    unfold callById. simpl. rewrite Hid. apply lookup_insert_eq.
Qed.

(** ** Invariants of every run *)

(** X15: in every state a client reaches, an entry of the registry under
    an id refers to an object of the store whose [id] is that id, so two
    entries never refer to the same object. *)
Theorem registry_entries_are_keyed_by_call_id (config : Config) (acts : list Action) :
  let c := run acts (new_Client config) in
  (forall k r, callById k c = Some r ->
     exists obj, heap c !! r = Some obj /\ id obj = k)
  /\ (forall k1 k2 r, callById k1 c = Some r -> callById k2 c = Some r -> k1 = k2).
Proof.
  intros c.
  assert (R : registry_ok c).
  { apply registry_ok_run, registry_ok_new. }
  split; [exact R|].
  intros k1 k2 r H1 H2.
  destruct (R _ _ H1) as (o1 & Ho1 & <-).
  destruct (R _ _ H2) as (o2 & Ho2 & <-). congruence.
Qed.

Lemma conservation_step (c c' : Client) :
  correlator_ok c ->
  corr_step c c' ->
  length (sends (trace c))
  = (size (queueRequest c) + length (settlements (trace c)))%nat ->
  length (sends (trace c'))
  = (size (queueRequest c') + length (settlements (trace c')))%nat.
Proof.
  intros (L & _ & P & _) [E1 E2 E3 E4|k f E1 E2 E3 F E4|s p o Hp E1 E2 E3 E4] H;
    rewrite ?E2, ?E3, ?E4.
  - done.
  - rewrite length_app, map_size_insert_None; [simpl; lia|].
    destruct (queueRequest c !! (reqSeq c + 1)) as [p|] eqn:Hq; [|done].
    destruct (P _ _ Hq) as (? & ? & _). lia.
  - rewrite length_app. simpl.
    rewrite map_size_delete, Hp.
    assert (size (queueRequest c) <> 0%nat).
    { intros Z0. apply map_size_empty_inv in Z0. rewrite Z0 in Hp.
      by rewrite lookup_empty in Hp. }
    lia.
Qed.

(** X16: no request is lost or answered twice: in every state a client
    reaches, the number of requests sent is the number of pending entries
    plus the number of promises settled. *)
Theorem every_request_is_pending_or_settled (config : Config) (acts : list Action) :
  let c := run acts (new_Client config) in
  length (sends (trace c))
  = (size (queueRequest c) + length (settlements (trace c)))%nat.
Proof.
  induction acts as [|a acts IH] using rev_ind; [done|].
  simpl in *. rewrite run_snoc.
  eapply conservation_step; [|apply step_corr|exact IH].
  apply correlator_ok_run, correlator_ok_new.
Qed.

Lemma published_handleCallEvents (event : option CallEventData) (c : Client) :
  Forall on_published_channel (trace c) ->
  Forall on_published_channel (trace (handleCallEvents event c).1).
Proof.
  intros T. unfold handleCallEvents.
  destruct event as [event|]; [|done].
  destruct (e_event event =? CallActions.Ringing)%string.
  { destruct (new_Call (phone c) event) as [obj|]; [|done].
    unfold checkAutoAnswer, answer.
    repeat case_match; simplify_eq; simpl; try done;
      try apply published_emit; try apply published_call; simpl; try done;
      by apply published_effect. }
  repeat case_match; try (apply published_on_call; [by (left + right)|done]).
  done.
Qed.

Lemma published_onMessage (message : Message) (c : Client) :
  Forall on_published_channel (trace c) ->
  Forall on_published_channel (trace (onMessage message c).1).
Proof.
  intros T. unfold onMessage.
  assert (T0 : Forall on_published_channel
                 (trace (effect (Log Debug [LStr "receive message: ";
                                            LMessage message]) c)))
    by (by apply published_effect).
  revert T0. generalize (effect (Log Debug [LStr "receive message: ";
                                            LMessage message]) c).
  intros c0 T0.
  repeat case_match; simplify_eq; simpl; try done;
    unfold settle, handleUserStateEvent;
    try (apply published_resume; by apply published_effect);
    try (apply published_emit; [|done];
         unfold published_channels; rewrite !elem_of_cons; auto 10; fail);
    try (by apply published_handleCallEvents);
    try (by apply published_effect).
  all: unfold connected in *; repeat case_match; simplify_eq;
    try apply published_log_opened; simpl; try done; by apply published_effect.
Qed.

Lemma published_with_obj {A} (call : ref) (method : Call -> Client -> Client * A)
    (c : Client) :
  (forall obj c, Forall on_published_channel (trace c) ->
                 Forall on_published_channel (trace (method obj c).1)) ->
  Forall on_published_channel (trace c) ->
  Forall on_published_channel (trace (with_obj call method c)).
Proof. intros H T. unfold with_obj. destruct (heap c !! call); auto. Qed.

Lemma published_step (c : Client) (a : Action) :
  Forall on_published_channel (trace c) ->
  Forall on_published_channel (trace (step c a)).
Proof.
  intros T. unfold step.
  destruct a; try (by apply published_request);
    try (by apply published_onMessage).
  all: apply published_with_obj; [|done]; intros obj c' T';
    unfold hold, unHold, toggleHold, mute, hangup, sendDTMF,
      blindTransfer, hold, unHold;
    repeat case_match; try done; try (by apply published_request).
  apply published_with_obj; [|done]. intros obj' c'' T''.
  unfold bridgeTo. by apply published_request.
Qed.

(** X17: handlers are invoked on four channels only, "call", "user_state",
    "sip" and "agent_status": in every state a client reaches, no handler
    was invoked on any other channel.  In particular the handlers that
    [subscribeQueueJoinMember] adds to "queue_join_member" are never
    invoked. *)
Theorem handlers_run_on_published_channels_only
    (config : Config) (acts : list Action)
    (channel : string) (h : Handler) (args : EmitArgs) :
  (channel, h, args) ∈ invocations (trace (run acts (new_Client config))) ->
  channel ∈ published_channels
  /\ channel <> WEBSOCKET_EVENT_QUEUE_JOIN_MEMBER.
Proof.
  assert (T : Forall on_published_channel (trace (run acts (new_Client config)))).
  { induction acts as [|a acts IH] using rev_ind; [constructor|].
    rewrite run_snoc. by apply published_step. }
  intros H.
  assert (I : Invoke channel h args ∈ trace (run acts (new_Client config))).
  { unfold invocations in H. apply list_elem_of_omap in H as (e & He & Hm).
    destruct e; try discriminate. by simplify_eq. }
  rewrite Forall_forall in T. specialize (T _ I). simpl in T.
  split; [exact T|].
  intros ->. unfold published_channels in T. rewrite !elem_of_cons in T.
  destruct T as [T|[T|[T|[T|T]]]]; try discriminate. by apply elem_of_nil in T.
Qed.

Lemma objects_kept_handleCallEvents (event : option CallEventData) (c : Client) :
  objects_kept c (handleCallEvents event c).1.
Proof.
  destruct event as [e|]; [|by apply objects_kept_same].
  destruct (String.eqb_spec (e_event e) CallActions.Ringing) as [He|He].
  { destruct (new_Call (phone c) e) as [obj|ex] eqn:Hn.
    - destruct (ringing_constructs document_hidden e obj c He Hn) as (E & _).
      intros r o H. rewrite E. exists o. split; [|done]. by apply lookup_app_l_Some.
    - unfold handleCallEvents. rewrite He, Hn. by apply objects_kept_same. }
  apply eqb_false in He. unfold handleCallEvents. rewrite He.
  repeat case_match; try (by apply objects_kept_same);
    (apply objects_kept_on_call; [|by (left + right)]); intros o;
    unfold total, setActive, setBridged, setExecute, addDigit, setHangup;
    repeat case_match; reflexivity.
Qed.

Lemma objects_kept_onMessage (message : Message) (c : Client) :
  objects_kept c (onMessage message c).1.
Proof.
  unfold onMessage. set (c0 := effect _ c).
  apply (objects_kept_trans c c0); [by apply objects_kept_same|].
  repeat case_match; simplify_eq; simpl;
    try (apply objects_kept_same; unfold handleUserStateEvent;
         first [apply emit_calls | split; reflexivity]; fail).
  - unfold settle. eapply objects_kept_trans; [|apply objects_kept_resume].
    by apply objects_kept_same.
  - unfold settle. eapply objects_kept_trans; [|apply objects_kept_resume].
    by apply objects_kept_same.
  - apply objects_kept_same.
    eapply same_calls_trans; [|apply log_opened_calls].
    match goal with H : connected ?i ?c = _ |- _ =>
      pose proof (connected_calls new_SipPhone i c) as K; rewrite H in K; exact K end.
  - apply objects_kept_same.
    match goal with H : connected ?i ?c = _ |- _ =>
      pose proof (connected_calls new_SipPhone i c) as K; rewrite H in K; exact K end.
  - apply objects_kept_same.
    match goal with H : connected ?i ?c = _ |- _ =>
      pose proof (connected_calls new_SipPhone i c) as K; rewrite H in K; exact K end.
  - apply objects_kept_handleCallEvents.
Qed.

Lemma objects_kept_step (c : Client) (a : Action) : objects_kept c (step c a).
Proof.
  unfold step.
  destruct a; try (apply objects_kept_same, request_calls);
    try apply objects_kept_onMessage.
  all: apply objects_kept_same, with_obj_calls; intros obj c';
    unfold hold, unHold, toggleHold, mute, hangup, sendDTMF, blindTransfer,
      hold, unHold;
    repeat case_match; try (split; reflexivity).
  apply with_obj_calls. intros obj' c''. split; reflexivity.
Qed.

(** X18: a reference never dangles and an object never changes identity:
    however a client goes on, an object it holds is still in the store under
    the same reference, with the id, application id, creation time,
    direction, destination, [from] endpoint, parent id, payload, queue,
    SIP id and parameters the constructor gave it. *)
Theorem constructed_fields_never_change (acts : list Action) (c : Client)
    (r : ref) (obj : Call) :
  heap c !! r = Some obj ->
  exists obj',
    heap (run acts c) !! r = Some obj'
    /\ constructed obj' = constructed obj.
Proof.
  intros H.
  assert (K : objects_kept c (run acts c)).
  { induction acts as [|a acts IH] using rev_ind.
    - by apply objects_kept_same.
    - rewrite run_snoc. eapply objects_kept_trans; [exact IH|].
      apply objects_kept_step. }
  by apply K.
Qed.

(** ** Events of the other channels *)

(** X19: a [user_state], [agent_status] or [sip] event invokes every
    listener of its own channel once, in the order of subscription, and does
    nothing else besides the debug line.  The first two hand over the
    [state] and [status] property of the data and throw, invoking nobody,
    when the message has no data; [sip] hands over the data itself, missing
    or not. *)
Theorem events_reach_the_listeners_of_their_channel (message : Message) (c : Client) :
  is_reply message = false ->
  let logged := effect (Log Debug [LStr "receive message: "; LMessage message]) c in
  let invoked channel args :=
    effects ((fun h => Invoke channel h args) <$> listeners channel c) logged in
  (event message = Some WEBSOCKET_EVENT_USER_STATE ->
     (forall d, data message = Some d ->
        onMessage message c
        = (invoked WEBSOCKET_EVENT_USER_STATE (UserStateArgs (md_state d)),
           Fulfilled tt))
     /\ (data message = None ->
         onMessage message c = (logged, Rejected TypeError)))
  /\ (event message = Some WEBSOCKET_EVENT_AGENT_STATUS ->
     (forall d, data message = Some d ->
        onMessage message c
        = (invoked WEBSOCKET_EVENT_AGENT_STATUS (AgentStatusArgs (md_status d)),
           Fulfilled tt))
     /\ (data message = None ->
         onMessage message c = (logged, Rejected TypeError)))
  /\ (event message = Some WEBSOCKET_EVENT_SIP ->
     onMessage message c
     = (invoked WEBSOCKET_EVENT_SIP (SipArgs (data message)), Fulfilled tt)).
Proof.
  intros R logged invoked. unfold onMessage. rewrite R. fold logged.
  split; [|split].
  - intros ->. simpl. split.
    + intros d ->. unfold handleUserStateEvent. by rewrite emit_effects.
    + by intros ->.
  - intros ->. simpl. split.
    + intros d ->. by rewrite emit_effects.
    + by intros ->.
  - intros ->. simpl. by rewrite emit_effects.
Qed.

(** ** The greeting *)

(** X20: a greeting with data stores the data as connection information,
    which the getters [instanceId], [version] and [sessionInfo] then read,
    and constructs the phone with the socket id; the calls, the registry
    and the listeners stay as they are.  Without web device registration no
    request is sent; with it, exactly one [user_default_device] request is
    sent and the handling of the greeting waits for its reply. *)
Theorem greeting_sets_the_connection (message : Message) (d : MessageData)
    (c : Client) :
  is_reply message = false ->
  event message = Some WEBSOCKET_EVENT_HELLO ->
  data message = Some d ->
  let c' := (onMessage message c).1 in
  (connectionInfo c' = Some d
   /\ phone c' = Some (new_SipPhone (md_sock_id d) (debug (_config c)))
   /\ instanceId c' = Normal (md_sock_id d)
   /\ version c' = Normal (md_server_version d)
   /\ sessionInfo c' = Normal (md_session d))
  /\ (heap c' = heap c /\ callStore c' = callStore c
      /\ eventHandler c' = eventHandler c)
  /\ (useWebPhone c = false ->
      sends (trace c') = sends (trace c)
      /\ (onMessage message c).2
         = match md_session d with
           | Some _ => Fulfilled tt
           | None => Rejected TypeError
           end)
  /\ (useWebPhone c = true ->
      (onMessage message c).2 = Pending
      /\ sends (trace c')
         = sends (trace c)
           ++ [{| seq := reqSeq c + 1; action := WEBSOCKET_DEFAULT_DEVICE_CONFIG;
                  f_data := Some [] |}]
      /\ queueRequest c' !! (reqSeq c + 1)
         = Some {| promise := length (sends (trace c)); await := KDeviceConfig |}).
Proof.
  intros R He Hd c'. subst c'. unfold onMessage. rewrite R, He, Hd. simpl.
  unfold connected, useWebPhone, instanceId, version, sessionInfo, log_opened.
  simpl.
  destruct (default false (registerWebDevice (_config c))); simpl.
  - split; [done|]. split; [done|]. split; [discriminate|].
    intros _. split; [done|]. split; [traces|].
    rewrite lookup_insert_eq, sends_app. simpl. by rewrite app_nil_r.
  - destruct (md_session d) eqn:Hse; simpl; rewrite ?Hse.
    + split; [done|]. split; [done|]. split; [|discriminate].
      intros _. split; [traces|done].
    + split; [done|]. split; [done|]. split; [|discriminate].
      intros _. split; [traces|done].
Qed.

(** X21: a failure of the web device registration is reported and not
    fatal.  On a connection whose information carries a session, when the
    reply to the [user_default_device] request arrives, a reply with status
    OK hands its data to [phone.register]; any other reply logs its error
    with [log.error].  In both cases the opened
    session is then logged, the handling of the reply is fulfilled, and the
    connection, the phone, the calls and the registry are untouched. *)
Theorem device_configuration_failure_is_logged
    (c : Client) (s : Z) (p : PromiseCallback) (reply : Message)
    (info : MessageData) (session : Session) :
  queueRequest c !! s = Some p ->
  await p = KDeviceConfig ->
  0 < s ->
  seq_reply reply = Some s ->
  connectionInfo c = Some info ->
  md_session info = Some session ->
  let c' := (onMessage reply c).1 in
  let received := Log Debug [LStr "receive message: "; LMessage reply] in
  let opened :=
    Log Debug [LStr ("opened session " ++ show_str (md_sock_id info)
                     ++ " for userId=" ++ show_num (s_user_id session))%string] in
  (onMessage reply c).2 = Fulfilled tt
  /\ (status reply = Some Response.STATUS_OK ->
      trace c'
      = trace c ++ [received; Settle (promise p) (Resolved (data reply));
                    PhoneRegister (data reply); opened])
  /\ (status reply <> Some Response.STATUS_OK ->
      trace c'
      = trace c ++ [received; Settle (promise p) (Refused (error reply));
                    Log Err [LObject (error reply)]; opened])
  /\ (connectionInfo c' = connectionInfo c /\ phone c' = phone c
      /\ heap c' = heap c /\ callStore c' = callStore c
      /\ queueRequest c' = delete s (queueRequest c)).
Proof.
  intros Hp Hk Hpos Hs Hi Hse c' received opened.
  destruct (onMessage_reply document_hidden new_SipPhone reply c s p Hs Hpos Hp)
    as (F & _ & _ & _ & _ & E).
  fold c' in E. rewrite Hk in E.
  split; [exact F|].
  split; [|split].
  - intros St. apply str_is_true in St. rewrite St in E. rewrite E. simpl.
    unfold log_opened. simpl. rewrite Hi, Hse. simpl.
    by rewrite <- !app_assoc.
  - intros St. apply str_is_false in St. rewrite St in E. rewrite E. simpl.
    unfold log_opened. simpl. rewrite Hi, Hse. simpl.
    by rewrite <- !app_assoc.
  - rewrite E.
    destruct (str_is (status reply) Response.STATUS_OK); simpl;
      unfold log_opened; simpl; rewrite Hi, Hse; done.
Qed.

(** ** Annotations and events without data *)

(** X22: the events [voice] and [silence], and an [execute] event that
    carries its data, change one field of a registered call and nothing
    else: [voice] sets the voice flag, [silence] clears it, [execute] appends
    the application name to the application log; the state, the timestamps
    and the registry stay as they are and the subscribers are told.  An
    [execute] event without data throws on reading the application: the call
    and the registry are as before and no subscriber is told. *)
Theorem annotation_events_change_one_field (e : CallEventData) (c : Client)
    (r : ref) (obj : Call) :
  callById (e_id e) c = Some r ->
  heap c !! r = Some obj ->
  let result := handleCallEvents (Some e) c in
  let c' := result.1 in
  let told :=
    invocations (trace c)
    ++ ((fun h => (WEBSOCKET_EVENT_CALL, h, CallArgs (e_event e) r))
          <$> listeners WEBSOCKET_EVENT_CALL c) in
  (e_event e = CallActions.Voice ->
     result.2 = Fulfilled tt
     /\ heap c' = <[r := set_voice true obj]> (heap c)
     /\ callStore c' = callStore c /\ invocations (trace c') = told)
  /\ (e_event e = CallActions.Silence ->
     result.2 = Fulfilled tt
     /\ heap c' = <[r := set_voice false obj]> (heap c)
     /\ callStore c' = callStore c /\ invocations (trace c') = told)
  /\ (forall d, e_event e = CallActions.Execute -> e_data e = Some d ->
     result.2 = Fulfilled tt
     /\ heap c'
        = <[r := set_applications (applications obj ++ [d_application d]) obj]> (heap c)
     /\ callStore c' = callStore c /\ invocations (trace c') = told)
  /\ (e_event e = CallActions.Execute -> e_data e = None ->
     result.2 = Rejected TypeError
     /\ heap c' = heap c /\ callStore c' = callStore c /\ trace c' = trace c).
Proof.
  intros Hc Ho result c' told. subst c' result told. unfold handleCallEvents.
  split; [|split; [|split]].
  - intros He. rewrite He. simpl. rewrite <- He.
    rewrite (on_call_registered e (total setVoice) nothing c r obj _ Hc Ho eq_refl).
    rewrite emit_effects. simpl. by rewrite invocations_app, invocations_invokes.
  - intros He. rewrite He. simpl. rewrite <- He.
    rewrite (on_call_registered e (total setSilence) nothing c r obj _ Hc Ho eq_refl).
    rewrite emit_effects. simpl. by rewrite invocations_app, invocations_invokes.
  - intros d He Hd. rewrite He. simpl. rewrite <- He.
    rewrite (on_call_registered e (setExecute (e_data e)) nothing c r obj
               (set_applications (applications obj ++ [d_application d]) obj) Hc Ho).
    + rewrite emit_effects. simpl. by rewrite invocations_app, invocations_invokes.
    + by rewrite Hd.
  - intros He Hd. rewrite He. simpl.
    rewrite (on_call_throws e (setExecute (e_data e)) nothing c r obj obj
               TypeError Hc Ho).
    + simpl. by rewrite list_insert_id.
    + by rewrite Hd.
Qed.

(** X23: a [hangup] or [bridge] event without a data object is applied by
    half.  The method throws on reading the data, after [hangupAt] (resp.
    an unset [bridgedAt]) has taken the timestamp of the event: the call
    keeps its state and stays registered, nothing is logged and no
    subscriber is told. *)
Theorem events_without_data_are_half_applied (e : CallEventData) (c : Client)
    (r : ref) (obj : Call) :
  callById (e_id e) c = Some r ->
  heap c !! r = Some obj ->
  e_data e = None ->
  let result := handleCallEvents (Some e) c in
  (e_event e = CallActions.Hangup ->
     result.2 = Rejected TypeError
     /\ heap result.1 = <[r := set_hangupAt (e_timestamp e) obj]> (heap c)
     /\ callStore result.1 = callStore c
     /\ trace result.1 = trace c)
  /\ (e_event e = CallActions.Bridge ->
     result.2 = Rejected TypeError
     /\ heap result.1
        = <[r := if bridgedAt obj =? 0 then set_bridgedAt (e_timestamp e) obj
                 else obj]> (heap c)
     /\ callStore result.1 = callStore c
     /\ trace result.1 = trace c).
Proof.
  intros Hc Ho Hd result. subst result. unfold handleCallEvents.
  split.
  - intros He. rewrite He. simpl.
    rewrite (on_call_throws e (setHangup e) evict c r obj
               (set_hangupAt (e_timestamp e) obj) TypeError Hc Ho); [done|].
    unfold setHangup. by rewrite Hd.
  - intros He. rewrite He. simpl.
    rewrite (on_call_throws e (setBridged e) nothing c r obj
               (if bridgedAt obj =? 0 then set_bridgedAt (e_timestamp e) obj else obj)
               TypeError Hc Ho); [done|].
    unfold setBridged. by rewrite Hd.
Qed.

(** ** What events and control methods leave alone *)

(** X24: only a reply and the greeting touch the correlator: handling any
    other message sends no request, settles no promise and leaves the
    sequence counter and the pending requests as they are. *)
Theorem events_leave_the_correlator_alone (message : Message) (c : Client) :
  is_reply message = false ->
  event message <> Some WEBSOCKET_EVENT_HELLO ->
  let c' := (onMessage message c).1 in
  reqSeq c' = reqSeq c
  /\ queueRequest c' = queueRequest c
  /\ sends (trace c') = sends (trace c)
  /\ settlements (trace c') = settlements (trace c).
Proof.
  intros R He c'. subst c'. apply str_is_false in He.
  unfold onMessage. rewrite R, He.
  repeat case_match; simplify_eq; simpl;
    try (unfold handleUserStateEvent; rewrite ?emit_effects; same; fail).
  match goal with |- context [handleCallEvents ?ev ?c0] =>
    destruct (handleCallEvents_same document_hidden ev c0) as (-> & -> & -> & ->) end.
  same.
Qed.

(** X25: a control method changes nothing locally.  Whatever the
    application calls on the client or on a call it holds, the objects, the
    registry and the listeners are as before: the state of a call moves only
    when the server's event arrives, and the mute flag only with the reply. *)
Theorem control_methods_change_nothing_locally (a : Action) (c : Client) :
  (forall message, a <> Receive message) ->
  heap (step c a) = heap c
  /\ callStore (step c a) = callStore c
  /\ eventHandler (step c a) = eventHandler c
  /\ connectionInfo (step c a) = connectionInfo c.
Proof.
  intros H. unfold step, with_obj.
  destruct a; try done;
    try (unfold toggleHold, hold, unHold, mute, hangup, sendDTMF, blindTransfer,
           bridgeTo;
         repeat case_match; done).
  by destruct (H message).
Qed.

End more_properties.

Lemma annotation_events_change_one_field_witness :
  heap (handleCallEvents false (Some (call_event "c1" "silence" 1006 None)) answered).1
  = [set_voice false c1_active]
  /\ (handleCallEvents false (Some (call_event "c1" "execute" 1006 None)) answered).2
     = Rejected TypeError
  /\ heap (handleCallEvents false (Some (call_event "c1" "execute" 1006 None)) answered).1
     = heap answered.
Proof.
  destruct (annotation_events_change_one_field false
              (call_event "c1" "silence" 1006 None) answered 0%nat c1_active)
    as (_ & A & _); [vm_compute; reflexivity | vm_compute; reflexivity |].
  destruct (annotation_events_change_one_field false
              (call_event "c1" "execute" 1006 None) answered 0%nat c1_active)
    as (_ & _ & _ & B); [vm_compute; reflexivity | vm_compute; reflexivity |].
  destruct A as (_ & A & _); [reflexivity|].
  destruct B as (B1 & B2 & _); [reflexivity | reflexivity |].
  split; [by rewrite A|]. split; [exact B1|exact B2].
Defined.

Lemma events_without_data_are_half_applied_witness :
  let e := call_event "c1" "hangup" 1010 None in
  (handleCallEvents false (Some e) answered).2 = Rejected TypeError
  /\ heap (handleCallEvents false (Some e) answered).1
     = [set_hangupAt 1010 c1_active]
  /\ callById "c1" (handleCallEvents false (Some e) answered).1 = Some 0%nat.
Proof.
  intros e.
  destruct (events_without_data_are_half_applied false e answered 0%nat c1_active)
    as ((A & B & C & _) & _).
  - vm_compute. reflexivity.
  - vm_compute. reflexivity.
  - reflexivity.
  - reflexivity.
  - split; [exact A|]. split; [by rewrite B|].
    unfold callById. by rewrite C.
Defined.

Lemma events_leave_the_correlator_alone_witness :
  let c := request "ping" None KReturn greeted in
  queueRequest (onMessage false a_phone (call_message ringing_c1) c).1
  = queueRequest c.
Proof.
  intros c.
  destruct (events_leave_the_correlator_alone false a_phone
              (call_message ringing_c1) c) as (_ & A & _).
  - reflexivity.
  - vm_compute. discriminate.
  - exact A.
Defined.

Lemma control_methods_change_nothing_locally_witness :
  heap (step false a_phone answered (DoHold 0%nat)) = heap answered
  /\ (state <$> heap (step false a_phone answered (DoHold 0%nat)) !! 0%nat)
     = Some "active".
Proof.
  destruct (control_methods_change_nothing_locally false a_phone (DoHold 0%nat)
              answered) as (A & _).
  - intros message. discriminate.
  - split; [exact A|]. by rewrite A.
Defined.

(** ** The concrete session, again *)


Lemma event_for_unknown_call_is_dropped_witness :
  handleCallEvents false (Some active_c1) greeted = (greeted, Fulfilled tt).
Proof.
  apply event_for_unknown_call_is_dropped.
  - unfold handled_actions. rewrite !elem_of_cons. right. left. reflexivity.
  - vm_compute. discriminate.
  - vm_compute. reflexivity.
Defined.

Lemma ringing_before_greeting_creates_nothing_witness :
  handleCallEvents false (Some ringing_c1) (new_Client a_config)
  = (new_Client a_config, Rejected TypeError).
Proof.
  apply ringing_before_greeting_creates_nothing; [reflexivity|].
  left. reflexivity.
Defined.

Lemma state_events_are_never_refused_witness :
  let hold_c1 := call_event "c1" "hold" 1001 None in
  state c1_new = "ringing"
  /\ heap (handleCallEvents false (Some hold_c1) ringing).1
     = [set_state "hold" c1_new].
Proof.
  intros hold_c1.
  destruct (state_events_are_never_refused false hold_c1 ringing 0%nat c1_new)
    as (_ & _ & _ & A & _).
  - right. reflexivity.
  - vm_compute. reflexivity.
  - vm_compute. reflexivity.
  - split; [reflexivity|]. rewrite A; reflexivity.
Defined.

Lemma dtmf_digits_are_logged_in_order_witness :
  (digits <$>
     heap (run false a_phone (call_messages [dtmf_c1 "4"; dtmf_c1 "2"]) answered)
       !! 0%nat)
  = Some [Some "4"; Some "2"].
Proof.
  destruct (dtmf_digits_are_logged_in_order false a_phone
              [dtmf_c1 "4"; dtmf_c1 "2"] answered "c1" 0%nat c1_active)
    as (A & _).
  - vm_compute. reflexivity.
  - vm_compute. reflexivity.
  - repeat constructor; eexists; reflexivity.
  - rewrite A. reflexivity.
Defined.

Lemma ringing_answers_queue_calls_when_visible_witness :
  sip c2_new = Some session_c2
  /\ trace (handleCallEvents false (Some ringing_c2) greeted_b).1
     = trace greeted_b
       ++ [SipAnswer 0%nat {| ar_audio := None; ar_video := Some true;
                              ar_screen := None; ar_disableStun := None |}]
  /\ trace (handleCallEvents true (Some ringing_c2) greeted_b).1 = trace greeted_b.
Proof.
  assert (N : new_Call (phone greeted_b) ringing_c2 = Normal c2_new)
    by (vm_compute; reflexivity).
  destruct (ringing_answers_queue_calls_when_visible false ringing_c2 c2_new
              greeted_b eq_refl N) as (A & _).
  destruct (ringing_answers_queue_calls_when_visible true ringing_c2 c2_new
              greeted_b eq_refl N) as (_ & B & _).
  split; [reflexivity|]. split.
  - destruct (A _ session_c2 eq_refl eq_refl eq_refl eq_refl) as (_ & ->).
    reflexivity.
  - destruct B as (_ & ->); [by left|]. apply app_nil_r.
Defined.

Lemma handlers_run_on_published_channels_only_witness :
  WEBSOCKET_EVENT_CALL ∈ published_channels
  /\ WEBSOCKET_EVENT_CALL <> WEBSOCKET_EVENT_QUEUE_JOIN_MEMBER.
Proof.
  apply (handlers_run_on_published_channels_only false a_phone a_config
           [Receive hello_message; DoSubscribe "subscribe_call" "call" 7%nat None;
            Receive (reply_ok 1); Receive (call_message ringing_c1)]
           WEBSOCKET_EVENT_CALL 7%nat (CallArgs "ringing" 0%nat)).
  vm_compute. apply list_elem_of_here.
Defined.

Lemma constructed_fields_never_change_witness :
  exists obj',
    heap (run false a_phone
            [Receive (call_message bridge_c1); Receive (call_message hangup_c1)]
            answered) !! 0%nat = Some obj'
    /\ constructed obj' = constructed c1_active.
Proof.
  apply constructed_fields_never_change. vm_compute. reflexivity.
Defined.

Lemma events_reach_the_listeners_of_their_channel_witness :
  let m := event_message WEBSOCKET_EVENT_SIP no_data in
  onMessage false a_phone m greeted
  = (effect (Log Debug [LStr "receive message: "; LMessage m]) greeted,
     Fulfilled tt).
Proof.
  intros m.
  destruct (events_reach_the_listeners_of_their_channel false a_phone m greeted
              eq_refl) as (_ & _ & A).
  rewrite A by reflexivity. reflexivity.
Defined.

Lemma greeting_sets_the_connection_witness :
  instanceId (new_Client web_config) = Throw TypeError
  /\ instanceId (onMessage false a_phone hello_message (new_Client web_config)).1
     = Normal (Some "sock-1")
  /\ action <$> sends (trace (onMessage false a_phone hello_message
                                (new_Client web_config)).1)
     = ["user_default_device"].
Proof.
  destruct (greeting_sets_the_connection false a_phone hello_message
              (default no_data (data hello_message)) (new_Client web_config)
              eq_refl eq_refl eq_refl) as ((_ & _ & A & _) & _ & _ & B).
  destruct B as (_ & B & _); [reflexivity|].
  split; [reflexivity|]. split; [exact A|]. by rewrite B.
Defined.

Lemma device_configuration_failure_is_logged_witness :
  let c := (onMessage false a_phone hello_message (new_Client web_config)).1 in
  (onMessage false a_phone (reply_fail 1) c).2 = Fulfilled tt
  /\ trace (onMessage false a_phone (reply_fail 1) c).1
     = trace c
       ++ [Log Debug [LStr "receive message: "; LMessage (reply_fail 1)];
           Settle 0%nat (Refused (error (reply_fail 1)));
           Log Err [LObject (error (reply_fail 1))];
           Log Debug [LStr "opened session sock-1 for userId=7"]].
Proof.
  intros c.
  assert (Hq : queueRequest c !! 1 = Some {| promise := 0; await := KDeviceConfig |})
    by (vm_compute; reflexivity).
  assert (Hi : connectionInfo c = Some (default no_data (data hello_message)))
    by (vm_compute; reflexivity).
  destruct (device_configuration_failure_is_logged false a_phone c 1
              {| promise := 0; await := KDeviceConfig |} (reply_fail 1)
              (default no_data (data hello_message))
              {| s_id := Some "sess"; s_user_id := Some 7 |}
              Hq eq_refl ltac:(lia) eq_refl Hi eq_refl)
    as (A & _ & B & _).
  split; [exact A|]. apply B. vm_compute. discriminate.
Defined.
